(** * cwl-utils: the multi-version document loader, the serializer and the
      software-requirement walker

    Shallow embedding of [cwl_utils/parser/__init__.py] and
    [cwl_utils/cite_extract.py].

    - [Py]: the Python values the loader works on.  The loader assigns into the
      caller's YAML object, so objects live in a store and are referred to by
      reference; exceptions are results.
    - [Parser]: [_get_id_from_graph], [cwl_version], [load_document],
      [load_document_by_string], [load_document_by_yaml].  The three generated
      parser modules [cwl_v1_0], [cwl_v1_1], [cwl_v1_2] and the YAML reader
      are parameters.  [load_document_by_uri] only fetches a text and calls
      [load_document_by_string]; it is left out.
    - [Data], [Serializer]: [save], [is_process], [version_split].  [save]
      only reads its argument and builds new plain data, so it is modelled on
      values; the [save] methods of the generated classes are parameters.
    - [CiteExtract]: [extract_software_reqs], [extract_software_packages],
      [process_software_requirement], [traverse], [get_process_from_step],
      [traverse_workflow].  Printing is a list of emitted lines; [load_field]
      and [load_document] of the generated parser are parameters.
    - [Demo]: documents, objects, processes and stand-ins for the parameters,
      for the examples.
    - [ParserFacts], [SerializerFacts], [CiteExtractFacts]: the properties.

    Strings are ASCII texts. *)

From Stdlib Require Import ZArith List String Ascii Bool Lia.
From stdpp Require Import base option list gmap strings.

Open Scope string_scope.
Set Warnings "-register-all".

(** ** Python values, objects and exceptions *)
Module Py.

Definition loc := positive.

(** Immutable values are carried as they are, mutable objects by reference. *)
Inductive val :=
| VNone
| VBool (b : bool)
| VInt (z : Z)
| VStr (s : string)
| VRef (l : loc).

(** A [dict] keeps insertion order, as Python's does. *)
Definition dict := list (string * val).

Inductive obj :=
| ODict (d : dict)
    (* dict, CommentedMap: the MutableMapping instances *)
| OList (xs : list val)
    (* list, CommentedSeq: the MutableSequence instances *)
| OInst (cls : string) (attrs : list string) (fields : dict).
    (* an instance of a generated schema class: class name, the class
       attribute [attrs], the instance attributes *)

Abbreviation heap := (gmap loc obj).

(** An exception message: a literal text, or a template with the value
    formatted into it. *)
Inductive message :=
| Text (s : string)
| Format (template : string) (arg : val).

Inductive exn :=
| ValidationException (msg : message)
| GraphTargetMissingException (msg : message)
| KeyError (key : string)
| TypeError
| AttributeError
| ValueError
| OtherError (name : string).

Inductive result (A : Type) :=
| Ok (a : A)
| Raise (e : exn).
Arguments Ok {A} a.
Arguments Raise {A} e.

Definition rbind {A B} (m : result A) (k : A -> result B) : result B :=
  match m with
  | Ok a => k a
  | Raise e => Raise e
  end.

(** Computations that read and write the store and may raise.  What was
    written before an exception stays written. *)
Definition M (A : Type) := heap -> heap * result A.

Definition ret {A} (a : A) : M A := fun h => (h, Ok a).
Definition raise {A} (e : exn) : M A := fun h => (h, Raise e).
Definition bind {A B} (m : M A) (k : A -> M B) : M B :=
  fun h => match m h with
           | (h', Ok a) => k a h'
           | (h', Raise e) => (h', Raise e)
           end.
(** A computation that only reads the store. *)
Definition reading {A} (f : heap -> result A) : M A := fun h => (h, f h).

Declare Scope py_scope.
Delimit Scope py_scope with py.
Notation "x <- m ;; k" := (bind m (fun x => k))
  (at level 100, m at next level, right associativity) : py_scope.
Notation "m ;;; k" := (bind m (fun _ => k))
  (at level 100, right associativity) : py_scope.
Notation "'let?' x := m 'in' k" := (rbind m (fun x => k))
  (at level 100, x name, m at next level, right associativity).

(** A comprehension or loop whose body may raise: the results in order,
    or the first exception. *)
Section Each.
Context {A B : Type}.
Variable f : A -> result B.

Fixpoint each (xs : list A) : result (list B) :=
  match xs with
  | [] => Ok []
  | x :: rest => let? y := f x in let? ys := each rest in Ok (y :: ys)
  end.

End Each.

(** [v == s] for a string [s]: only an equal string is equal to it. *)
Definition eq_string (v : val) (s : string) : bool :=
  match v with
  | VStr x => String.eqb x s
  | _ => false
  end.

(** [v is None]. *)
Definition is_none (v : val) : bool :=
  match v with
  | VNone => true
  | _ => false
  end.

(** *** Dictionaries *)

Fixpoint dict_get (k : string) (d : dict) : option val :=
  match d with
  | [] => None
  | (k', v) :: d' => if String.eqb k' k then Some v else dict_get k d'
  end.

Definition dict_keys (d : dict) : list string := map fst d.

Definition dict_mem (k : string) (d : dict) : bool :=
  existsb (String.eqb k) (dict_keys d).

(** [d[k] = v]: an existing key keeps its place, a new key goes last. *)
Fixpoint dict_set (k : string) (v : val) (d : dict) : dict :=
  match d with
  | [] => [(k, v)]
  | (k', v') :: d' =>
      if String.eqb k' k then (k', v) :: d' else (k', v') :: dict_set k v d'
  end.

(** *** Operations on values *)

(** [isinstance(v, MutableMapping)], with the mapping's entries. *)
Definition as_mapping (h : heap) (v : val) : option dict :=
  match v with
  | VRef l => match h !! l with Some (ODict d) => Some d | _ => None end
  | _ => None
  end.

(** [isinstance(v, MutableSequence)], with the sequence's items. *)
Definition as_sequence (h : heap) (v : val) : option (list val) :=
  match v with
  | VRef l => match h !! l with Some (OList xs) => Some xs | _ => None end
  | _ => None
  end.

(** [v[key]] for a string key: only a mapping can be subscripted by a
    string. *)
Definition getitem (h : heap) (v : val) (key : string) : result val :=
  match as_mapping h v with
  | Some d => match dict_get key d with
              | Some x => Ok x
              | None => Raise (KeyError key)
              end
  | None => Raise TypeError
  end.

(** [v[key] = x] for a string key. *)
Definition setitem (v : val) (key : string) (x : val) : M unit :=
  fun h => match v with
           | VRef l => match h !! l with
                       | Some (ODict d) => (<[l := ODict (dict_set key x d)]> h, Ok tt)
                       | _ => (h, Raise TypeError)
                       end
           | _ => (h, Raise TypeError)
           end.

Fixpoint chars (s : string) : list val :=
  match s with
  | EmptyString => []
  | String c s' => VStr (String c EmptyString) :: chars s'
  end.

(** [for el in v]: the values the loop sees.  A list gives its items, a
    mapping its keys, a string its characters; nothing else is iterable. *)
Definition iterate (h : heap) (v : val) : result (list val) :=
  match v with
  | VStr s => Ok (chars s)
  | VRef l => match h !! l with
              | Some (OList xs) => Ok xs
              | Some (ODict d) => Ok (map VStr (dict_keys d))
              | _ => Raise TypeError
              end
  | _ => Raise TypeError
  end.

(** [s.lstrip("#")]. *)
Fixpoint lstrip_hash (s : string) : string :=
  match s with
  | String c s' => if Ascii.eqb c "#"%char then lstrip_hash s' else s
  | EmptyString => EmptyString
  end.

(** [key in v] for a string key: a key of a mapping, an item of a
    sequence, a substring of a string. *)
Fixpoint is_substring (p s : string) : bool :=
  String.prefix p s ||
  match s with
  | String _ s' => is_substring p s'
  | EmptyString => false
  end.

Definition contains (h : heap) (v : val) (key : string) : result bool :=
  match v with
  | VStr s => Ok (is_substring key s)
  | VRef l => match h !! l with
              | Some (ODict d) => Ok (dict_mem key d)
              | Some (OList xs) => Ok (existsb (fun x => eq_string x key) xs)
              | _ => Raise TypeError
              end
  | _ => Raise TypeError
  end.

(** [sep.join(parts)]. *)
Fixpoint join (sep : string) (parts : list string) : string :=
  match parts with
  | [] => ""
  | [p] => p
  | p :: rest => p ++ sep ++ join sep rest
  end.

(** A new object at an unused location. *)
Definition alloc (o : obj) : M val :=
  fun h => let l := fresh (dom h) in (<[l := o]> h, Ok (VRef l)).

End Py.

(** ** cwl_utils/parser/__init__.py: loading *)
Module Parser.
Import Py.
Local Open Scope py_scope.

(** The generated parser modules [cwl_v1_0], [cwl_v1_1], [cwl_v1_2]. *)
Inductive cwl_module := cwl_v1_0 | cwl_v1_1 | cwl_v1_2.

(** [el["id"].lstrip("#")]: only a string has [lstrip]. *)
Definition stripped_id (h : heap) (el : val) : result string :=
  let? i := getitem h el "id" in
  match i with
  | VStr s => Ok (lstrip_hash s)
  | _ => Raise AttributeError
  end.

(** The loop of [_get_id_from_graph]: the first element whose stripped id
    is [id_]. *)
Fixpoint graph_search (h : heap) (id_ : string) (els : list val)
  : result (option val) :=
  match els with
  | [] => Ok None
  | el :: rest =>
      let? s := stripped_id h el in
      if String.eqb s id_ then Ok (Some el) else graph_search h id_ rest
  end.

(** [el["id"] for el in yaml["$graph"]], as [str.join] takes them. *)
Fixpoint graph_ids (h : heap) (els : list val) : result (list string) :=
  match els with
  | [] => Ok []
  | el :: rest =>
      let? i := getitem h el "id" in
      match i with
      | VStr s => let? ss := graph_ids h rest in Ok (s :: ss)
      | _ => Raise TypeError
      end
  end.

Definition _get_id_from_graph (h : heap) (yaml : val) (id_ : option string)
  : result val :=
  let id_ := match id_ with None => "main" | Some s => s end in
  let? graph := getitem h yaml "$graph" in
  let? els := iterate h graph in
  let? found := graph_search h id_ els in
  match found with
  | Some el => Ok el
  | None =>
      let? graph := getitem h yaml "$graph" in
      let? els := iterate h graph in
      let? ids := graph_ids h els in
      Raise (GraphTargetMissingException
               (Text ("Tool file contains graph of multiple objects, must specify one of #"
                        ++ join ", #" ids)))
  end.

Definition cwl_version (h : heap) (yaml : val) : result val :=
  match as_mapping h yaml with
  | None => Raise (ValidationException (Text "MutableMapping is required"))
  | Some d =>
      if negb (existsb (String.eqb "cwlVersion") (dict_keys d)) then Ok VNone
      else getitem h yaml "cwlVersion"
  end.

(** [if "cwlVersion" in r.attrs: r.cwlVersion = version]: [attrs] is an
    attribute of the generated classes only. *)
Definition stamp_version (version : val) (r : val) : M unit :=
  fun h =>
    match r with
    | VRef l =>
        match h !! l with
        | Some (OInst c attrs fields) =>
            if existsb (String.eqb "cwlVersion") attrs
            then (<[l := OInst c attrs (dict_set "cwlVersion" version fields)]> h, Ok tt)
            else (h, Ok tt)
        | _ => (h, Raise AttributeError)
        end
    | _ => (h, Raise AttributeError)
    end.

(** [lst.append(r)]. *)
Definition append (lst : val) (r : val) : M unit :=
  fun h =>
    match lst with
    | VRef l =>
        match h !! l with
        | Some (OList xs) => (<[l := OList (xs ++ [r])%list]> h, Ok tt)
        | _ => (h, Raise AttributeError)
        end
    | _ => (h, Raise AttributeError)
    end.

(** The loop over a sequence result. *)
Fixpoint stamp_all (version : val) (lst : val) (rs : list val) : M unit :=
  match rs with
  | [] => ret tt
  | r :: rest =>
      stamp_version version r ;;;
      append lst r ;;;
      stamp_all version lst rest
  end.

(** The end of [load_document_by_yaml], from [isinstance(result,
    MutableSequence)] on. *)
Definition finish (version : val) (result : val) : M val :=
  fun h =>
    match as_sequence h result with
    | Some rs =>
        (lst <- alloc (OList []) ;;
         stamp_all version lst rs ;;;
         ret lst) h
    | None => (h, Ok result)
    end.

Section Loader.

(** [cwl_v1_x.load_document_by_yaml(yaml, uri, loadingOptions)] of the
    generated parser module [m]. *)
Variable module_load_document_by_yaml :
  cwl_module -> val -> string -> val -> M val.
(** [yaml_no_ts().load(string)]. *)
Variable yaml_load : string -> M val.
(** [cwl_v1_0.file_uri(os.getcwd())]. *)
Variable file_uri_getcwd : string.

(** The graph step: [yaml = _get_id_from_graph(yaml, id_)] and
    [yaml["cwlVersion"] = version]. *)
Definition select_from_graph (yaml : val) (id_ : option string)
    (version : val) : M val :=
  el <- reading (fun h => _get_id_from_graph h yaml id_) ;;
  setitem el "cwlVersion" version ;;;
  ret el.

(** The chain of [if version == ...]. *)
Definition dispatch (version : val) (yaml : val) (uri : string)
    (loadingOptions : val) : M val :=
  if eq_string version "v1.0" then
    module_load_document_by_yaml cwl_v1_0 yaml uri loadingOptions
  else if eq_string version "v1.1" then
    module_load_document_by_yaml cwl_v1_1 yaml uri loadingOptions
  else if eq_string version "v1.2" then
    module_load_document_by_yaml cwl_v1_2 yaml uri loadingOptions
  else if is_none version then
    raise (ValidationException (Text "could not get the cwlVersion"))
  else
    raise (ValidationException
             (Format "Version error. Did not recognise {} as a CWL version" version)).

Definition load_document_by_yaml (yaml : val) (uri : string)
    (loadingOptions : val) (id_ : option string) (load_all : bool) : M val :=
  version <- reading (fun h => cwl_version h yaml) ;;
  in_graph <- reading (fun h => contains h yaml "$graph") ;;
  yaml <- (if in_graph && negb load_all
           then select_from_graph yaml id_ version
           else ret yaml) ;;
  result <- dispatch version yaml uri loadingOptions ;;
  finish version result.

Definition load_document_by_string (string_ : string) (uri : string)
    (loadingOptions : val) (id_ : option string) (load_all : bool) : M val :=
  result <- yaml_load string_ ;;
  load_document_by_yaml result uri loadingOptions id_ load_all.

(** [load_document]: the string branch calls [load_document_by_string]
    with four arguments, so its [load_all] is the default [False]. *)
Definition load_document (doc : val) (baseuri : option string)
    (loadingOptions : val) (id_ : option string) (load_all : bool) : M val :=
  let baseuri := match baseuri with
                 | None => file_uri_getcwd ++ "/"
                 | Some b => b
                 end in
  match doc with
  | VStr s => load_document_by_string s baseuri loadingOptions id_ false
  | _ => load_document_by_yaml doc baseuri loadingOptions id_ load_all
  end.

End Loader.

(** *** Words of the specification *)

(** The version string a parser module stands for. *)
Definition version_name (m : cwl_module) : string :=
  match m with
  | cwl_v1_0 => "v1.0"
  | cwl_v1_1 => "v1.1"
  | cwl_v1_2 => "v1.2"
  end.

(** The requested fragment id, ["main"] when none is given. *)
Definition requested (id_ : option string) : string := default "main" id_.

(** [el] is a mapping whose ["id"] is the string [s]. *)
Definition has_id (h : heap) (el : val) (s : string) : Prop :=
  exists d, as_mapping h el = Some d /\ dict_get "id" d = Some (VStr s).

(** [el] is a mapping with a string id that is not the requested one. *)
Definition other_id (h : heap) (id_ : option string) (el : val) : Prop :=
  exists s, has_id h el s /\ lstrip_hash s <> requested id_.

(** [r] is an instance of a generated class. *)
Definition is_instance (h : heap) (r : val) : Prop :=
  exists l c attrs fields, r = VRef l /\ h !! l = Some (OInst c attrs fields).

(** [r] is the reference [l]. *)
Definition refers_to (l : loc) (r : val) : bool :=
  match r with
  | VRef l' => Pos.eqb l' l
  | _ => false
  end.

(** The object at [l] once every object of [rs] whose class has
    ["cwlVersion"] among its [attrs] has been given the version. *)
Definition versioned (version : val) (rs : list val) (l : loc) (o : obj) : obj :=
  match o with
  | OInst c attrs fields =>
      if existsb (refers_to l) rs && existsb (String.eqb "cwlVersion") attrs
      then OInst c attrs (dict_set "cwlVersion" version fields)
      else o
  | _ => o
  end.

(** The text of the [GraphTargetMissingException] for a graph with the
    ids [ids]. *)
Definition graph_target_missing (ids : list string) : exn :=
  GraphTargetMissingException
    (Text ("Tool file contains graph of multiple objects, must specify one of #"
             ++ join ", #" ids)).

End Parser.

(** ** Plain data: what [save] reads and builds, and what a hint is *)
Module Data.

(** JSON/YAML-serializable values, with objects of type [O] among them. *)
Inductive data (O : Type) :=
| DNone
| DBool (b : bool)
| DInt (z : Z)
| DStr (s : string)
| DList (xs : list (data O))
| DDict (kvs : list (string * data O))
| DObj (o : O).
Arguments DNone {O}.
Arguments DBool {O} b.
Arguments DInt {O} z.
Arguments DStr {O} s.
Arguments DList {O} xs.
Arguments DDict {O} kvs.
Arguments DObj {O} o.

(** [kvs.get(k)]: the entry under the key [k], if any. *)
Fixpoint entry {O} (k : string) (kvs : list (string * data O))
  : option (data O) :=
  match kvs with
  | [] => None
  | (k', v) :: rest => if String.eqb k' k then Some v else entry k rest
  end.

(** Plain data: no object anywhere in it. *)
Fixpoint no_object {O} (v : data O) : bool :=
  match v with
  | DObj _ => false
  | DList xs => forallb no_object xs
  | DDict kvs => forallb (fun kv => no_object (snd kv)) kvs
  | _ => true
  end.

Definition is_None {O} (v : data O) : bool :=
  match v with DNone => true | _ => false end.

(** [v == s] for a string [s]. *)
Definition eq_str {O} (v : data O) (s : string) : bool :=
  match v with DStr s' => String.eqb s' s | _ => false end.

End Data.

(** ** cwl_utils/parser/__init__.py: serializing *)
Module Serializer.
Import Py Data.
Import Parser.

(** *** [int(s)] on a text

    The characters of a text are its code points, all below 256.  At both
    ends [int] skips the blanks: the characters 9 to 13 and 32, and of the
    characters from 128 the next line 133 and the no-break space 160.  The
    separators 28 to 31 are not skipped. *)

Definition is_space (c : ascii) : bool :=
  let n := nat_of_ascii c in
  (Nat.leb 9 n && Nat.leb n 13) || Nat.eqb n 32 || Nat.eqb n 133
  || Nat.eqb n 160.

Definition is_digit (c : ascii) : bool :=
  let n := nat_of_ascii c in Nat.leb 48 n && Nat.leb n 57.

Definition digit_value (c : ascii) : Z := Z.of_nat (nat_of_ascii c) - 48.

Fixpoint lstrip_space (cs : list ascii) : list ascii :=
  match cs with
  | c :: r => if is_space c then lstrip_space r else cs
  | [] => []
  end.

Definition strip_space (cs : list ascii) : list ascii :=
  rev (lstrip_space (rev (lstrip_space cs))).

(** Decimal digits, single underscores allowed between two digits. *)
Fixpoint digits (acc : Z) (after_digit : bool) (cs : list ascii) : option Z :=
  match cs with
  | [] => if after_digit then Some acc else None
  | c :: r =>
      if is_digit c then digits (10 * acc + digit_value c) true r
      else if Ascii.eqb c "_"%char
           then (if after_digit then digits acc false r else None)
           else None
  end.

(** [sys.int_max_str_digits] as the interpreter starts: a text of more
    digits is refused. *)
Definition int_max_str_digits : nat := 4300.

Definition py_int (s : string) : result Z :=
  let body := strip_space (list_ascii_of_string s) in
  let parsed :=
    match body with
    | c :: r =>
        if Ascii.eqb c "-"%char then option_map Z.opp (digits 0 false r)
        else if Ascii.eqb c "+"%char then digits 0 false r
        else digits 0 false body
    | [] => None
    end in
  match parsed with
  | Some z =>
      if Nat.leb (length (List.filter is_digit body)) int_max_str_digits
      then Ok z else Raise ValueError
  | None => Raise ValueError
  end.

(** The number a text of decimal digits writes. *)
Definition number (ds : list ascii) : Z :=
  fold_left (fun acc c => (10 * acc + digit_value c)%Z) ds 0%Z.

(** [s.split(".")]. *)
Fixpoint split_dot (s : string) : list string :=
  match s with
  | EmptyString => [""]
  | String c s' =>
      if Ascii.eqb c "."%char then "" :: split_dot s'
      else match split_dot s' with
           | p :: ps => String c p :: ps
           | [] => [String c ""]
           end
  end.

(** [s[1:]]. *)
Definition from_1 (s : string) : string :=
  match s with
  | EmptyString => ""
  | String _ s' => s'
  end.

(** [a > b] on lists of integers. *)
Fixpoint list_gt (a b : list Z) : bool :=
  match a, b with
  | x :: a', y :: b' => if Z.eqb x y then list_gt a' b' else Z.ltb y x
  | _ :: _, [] => true
  | [], _ => false
  end.

Section Save.

(** The objects of the generated classes: each belongs to one parser
    module, is or is not one of its [Process] classes, and has the
    [save] method the module generated for it. *)
Variable Saveable : Type.
Variable module_of : Saveable -> cwl_module.
Variable instance_of_Process : Saveable -> bool.
Variable Saveable_save :
  Saveable -> bool -> string -> bool -> result (data Saveable).

Abbreviation value := (data Saveable).

Definition cwl_module_eqb (a b : cwl_module) : bool :=
  match a, b with
  | cwl_v1_0, cwl_v1_0 | cwl_v1_1, cwl_v1_1 | cwl_v1_2, cwl_v1_2 => true
  | _, _ => false
  end.

(** [isinstance(v, m.Saveable)] and [isinstance(v, m.Process)]. *)
Definition isinstance_Saveable (m : cwl_module) (v : value) : bool :=
  match v with
  | DObj o => cwl_module_eqb (module_of o) m
  | _ => false
  end.

Definition isinstance_Process (m : cwl_module) (v : value) : bool :=
  match v with
  | DObj o => cwl_module_eqb (module_of o) m && instance_of_Process o
  | _ => false
  end.

Definition is_process (v : value) : bool :=
  isinstance_Process cwl_v1_0 v
  || isinstance_Process cwl_v1_1 v
  || isinstance_Process cwl_v1_2 v.

(** [[int(v) for v in version[1:].split(".")]]: a list can be sliced but
    has no [split]; what is neither a string nor a list cannot be
    sliced. *)
Definition version_split (version : value) : result (list Z) :=
  match version with
  | DStr s => each py_int (split_dot (from_1 s))
  | DList _ => Raise AttributeError
  | _ => Raise TypeError
  end.

(** [max(items, key=key)]: the first item whose key no later key
    exceeds; [ValueError] on no item. *)
Fixpoint max_from (key : value -> result (list Z)) (maxitem : value)
    (maxval : list Z) (items : list value) : result value :=
  match items with
  | [] => Ok maxitem
  | item :: rest =>
      let? v := key item in
      if list_gt v maxval then max_from key item v rest
      else max_from key maxitem maxval rest
  end.

Definition py_max (key : value -> result (list Z)) (items : list value)
  : result value :=
  match items with
  | [] => Raise ValueError
  | item :: rest => let? v := key item in max_from key item v rest
  end.

(** [e.get("cwlVersion")]. *)
Definition get_cwlVersion (e : value) : result value :=
  match e with
  | DDict kvs => Ok (default DNone (entry "cwlVersion" kvs))
  | _ => Raise AttributeError
  end.

(** [[e.get("cwlVersion") for i, e in enumerate(lst) if is_process(val[i])]]. *)
Fixpoint versions_of (lst val : list value) : result (list value) :=
  match lst, val with
  | e :: lst', v :: val' =>
      if is_process v
      then let? x := get_cwlVersion e in
           let? xs := versions_of lst' val' in Ok (x :: xs)
      else versions_of lst' val'
  | _, _ => Ok []
  end.

(** [save].  The keys of a mapping are distinct, so the loop over its keys
    is a loop over its entries. *)
Fixpoint save (val : value) (top : bool) (base_url : string)
    (relative_uris : bool) {struct val} : result value :=
  match val with
  | DObj o =>
      if isinstance_Saveable cwl_v1_0 val
         || isinstance_Saveable cwl_v1_1 val
         || isinstance_Saveable cwl_v1_2 val
      then Saveable_save o top base_url relative_uris
      else Ok val
  | DList xs =>
      let? lst := each (fun v => save v top base_url relative_uris) xs in
      if top && forallb is_process xs then
        let? vers := versions_of lst xs in
        let? latest :=
          py_max version_split (List.filter (fun v => negb (is_None v)) vers) in
        Ok (DDict [("cwlVersion", latest); ("$graph", DList lst)])
      else Ok (DList lst)
  | DDict kvs =>
      let? newdict :=
        each (fun kv : string * value =>
                let (key, v) := kv in
                let? x := save v false base_url relative_uris in
                Ok (key, x)) kvs in
      Ok (DDict newdict)
  | _ => Ok val
  end.

End Save.

End Serializer.

(** ** cwl_utils/cite_extract.py *)
Module CiteExtract.
Import Py Data.

Record SoftwarePackage := {
  package : string;
  version : option (list string);
  specs : option (list string)
}.

Record SoftwareRequirement := { packages : list SoftwarePackage }.

(** An entry of [requirements]: a loaded requirement object. *)
Inductive requirement :=
| ASoftwareRequirement (r : SoftwareRequirement)
| OtherRequirement (class_ : string).

(** An entry of [hints]: the data of the document, as it was read. *)
Definition hint := data Empty_set.

(** What [print] is given: [print(process.id)], or the package line
    with the three fields formatted into it. *)
Inductive line :=
| PrintId (id : option string)
| PrintPackage (package : string) (version specs : option (list string)).

Section Walk.

Variable LoadingOptions : Type.

(** The fields [extract_software_reqs] reads, of a process or a step. *)
Record fields := {
  id : option string;
  requirements : option (list requirement);
  hints : option (list hint);
  loadingOptions : LoadingOptions
}.

Inductive process :=
| CommandLineTool (f : fields)
| ExpressionTool (f : fields)
| Workflow (f : fields) (steps : list WorkflowStep)
with WorkflowStep :=
| Step (f : fields) (run : run_field)
with run_field :=
| RunStr (uri : string)
| RunProcess (p : process).

(** [cwl.load_field(req, cwl.SoftwareRequirementLoader, baseuri,
    loadingOptions)] and [cwl.load_document(uri)]. *)
Variable load_field_SoftwareRequirement :
  hint -> string -> LoadingOptions -> result SoftwareRequirement.
Variable load_document : string -> result process.

Definition fields_of (p : process) : fields :=
  match p with
  | CommandLineTool f | ExpressionTool f | Workflow f _ => f
  end.

Definition step_fields (s : WorkflowStep) : fields :=
  match s with Step f _ => f end.

Definition step_run (s : WorkflowStep) : run_field :=
  match s with Step _ r => r end.

(** A generator run to its end: what it yielded, and how it ended. *)
Definition generated (A : Type) : Type := list A * result unit.

(** [req["class"]]. *)
Definition hint_class (req : hint) : result hint :=
  match req with
  | DDict kvs => match entry "class" kvs with
                 | Some c => Ok c
                 | None => Raise (KeyError "class")
                 end
  | _ => Raise TypeError
  end.

Fixpoint from_requirements (reqs : list requirement)
  : list SoftwareRequirement :=
  match reqs with
  | [] => []
  | ASoftwareRequirement r :: rest => r :: from_requirements rest
  | OtherRequirement _ :: rest => from_requirements rest
  end.

Fixpoint from_hints (f : fields) (hs : list hint)
  : generated SoftwareRequirement :=
  match hs with
  | [] => ([], Ok tt)
  | req :: rest =>
      match hint_class req with
      | Raise e => ([], Raise e)
      | Ok c =>
          if eq_str c "SoftwareRequirement" then
            match load_field_SoftwareRequirement req
                    (match id f with
                     | Some i => if String.eqb i "" then "" else i
                     | None => ""
                     end)
                    (loadingOptions f) with
            | Raise e => ([], Raise e)
            | Ok r => let (ys, out) := from_hints f rest in (r :: ys, out)
            end
          else from_hints f rest
      end
  end.

Definition extract_software_reqs (f : fields)
  : generated SoftwareRequirement :=
  let first := match requirements f with
               | Some (r :: rs) => from_requirements (r :: rs)
               | _ => []
               end in
  match hints f with
  | Some (x :: xs) =>
      let (ys, out) := from_hints f (x :: xs) in ((first ++ ys)%list, out)
  | _ => (first, Ok tt)
  end.

Definition process_software_requirement (req : SoftwareRequirement)
  : list line :=
  map (fun p => PrintPackage (package p) (version p) (specs p))
    (packages req).

(** Printed lines and how the call ended. *)
Definition printed (A : Type) : Type := list line * result A.

Definition extract_software_packages (f : fields) : printed unit :=
  let (reqs, out) := extract_software_reqs f in
  (flat_map (fun req => PrintId (id f) :: process_software_requirement req)
     reqs,
   out).

Definition get_process_from_step (step : WorkflowStep) : result process :=
  match step_run step with
  | RunStr uri => load_document uri
  | RunProcess p => Ok p
  end.

(** One call after another: the lines add up, an exception ends the
    sequence, [None] is a call that did not return within the fuel. *)
Definition and_then (a : option (printed unit))
    (k : unit -> option (printed unit)) : option (printed unit) :=
  match a with
  | None => None
  | Some (o, Raise e) => Some (o, Raise e)
  | Some (o, Ok x) =>
      match k x with
      | None => None
      | Some (o', r) => Some ((o ++ o')%list, r)
      end
  end.

(** [traverse_workflow], given what [traverse] does on a process. *)
Fixpoint traverse_steps (traverse : process -> option (printed unit))
    (steps : list WorkflowStep) : option (printed unit) :=
  match steps with
  | [] => Some ([], Ok tt)
  | step :: rest =>
      and_then (Some (extract_software_packages (step_fields step)))
        (fun _ =>
           match get_process_from_step step with
           | Raise e => Some ([], Raise e)
           | Ok p =>
               and_then (traverse p)
                 (fun _ => traverse_steps traverse rest)
           end)
  end.

(** [traverse]; [fuel] bounds the depth of the calls of [traverse]. *)
Fixpoint traverse (fuel : nat) (p : process) : option (printed unit) :=
  match fuel with
  | O => None
  | S fuel' =>
      and_then (Some (extract_software_packages (fields_of p)))
        (fun _ =>
           match p with
           | Workflow _ steps => traverse_steps (traverse fuel') steps
           | _ => Some ([], Ok tt)
           end)
  end.

Definition traverse_workflow (fuel : nat) (workflow : process)
  : option (printed unit) :=
  match workflow with
  | Workflow _ steps => traverse_steps (traverse fuel) steps
  | _ => Some ([], Raise AttributeError)
  end.

(** [main], with [sys.argv] the list [argv]: [sys.argv[1]] on a shorter
    list is an IndexError. *)
Definition main (argv : list string) (fuel : nat) : option (printed Z) :=
  match argv with
  | _ :: arg :: _ =>
      match load_document arg with
      | Raise e => Some ([], Raise e)
      | Ok top =>
          match traverse fuel top with
          | None => None
          | Some (out, Raise e) => Some (out, Raise e)
          | Some (out, Ok _) => Some (out, Ok 0%Z)
          end
      end
  | _ => Some ([], Raise (OtherError "IndexError"))
  end.

(** *** Words of the specification *)

Definition steps_of (p : process) : list WorkflowStep :=
  match p with
  | Workflow _ steps => steps
  | _ => []
  end.

(** [q] is the sub-process of [step]: loaded from the URI when [run] is a
    string, [run] itself otherwise. *)
Definition sub_process (step : WorkflowStep) (q : process) : Prop :=
  match step_run step with
  | RunStr uri => load_document uri = Ok q
  | RunProcess p => q = p
  end.

(** [q] is the sub-process of a step of [p]. *)
Definition subprocess (p q : process) : Prop :=
  exists step, In step (steps_of p) /\ sub_process step q.

(** The entries of [requirements] that are SoftwareRequirement
    instances. *)
Definition software_requirements_in (reqs : list requirement)
  : list SoftwareRequirement :=
  omap (fun r => match r with
                 | ASoftwareRequirement x => Some x
                 | OtherRequirement _ => None
                 end) reqs.

(** [ys] holds one loaded SoftwareRequirement for each entry of [hs] whose
    ["class"] is "SoftwareRequirement", in order; every entry is a mapping
    with a ["class"]. *)
Inductive hints_loaded (f : fields)
  : list hint -> list SoftwareRequirement -> Prop :=
| hints_done : hints_loaded f [] []
| hints_other kvs c rest ys :
    entry "class" kvs = Some c ->
    c <> DStr "SoftwareRequirement" ->
    hints_loaded f rest ys ->
    hints_loaded f (DDict kvs :: rest) ys
| hints_software kvs rest r ys :
    entry "class" kvs = Some (DStr "SoftwareRequirement") ->
    load_field_SoftwareRequirement (DDict kvs) (default "" (id f))
      (loadingOptions f) = Ok r ->
    hints_loaded f rest ys ->
    hints_loaded f (DDict kvs :: rest) (r :: ys).

(** The software requirements of a process or step: those among its
    requirements, then those loaded from its hints. *)
Definition software_reqs (f : fields) (reqs : list SoftwareRequirement)
  : Prop :=
  exists ys,
    hints_loaded f (default [] (hints f)) ys
    /\ reqs = (software_requirements_in (default [] (requirements f)) ++ ys)%list.

(** The package metadata printed for them: per requirement the id, then a
    line per package. *)
Definition package_lines (f : fields) (reqs : list SoftwareRequirement)
  : list line :=
  reqs ≫= (fun req =>
    PrintId (id f)
      :: ((fun p => PrintPackage (package p) (version p) (specs p))
            <$> packages req)).

(** The walk of the specification: the lines of the process, then for
    each step in order the lines of the step followed by the walk of its
    sub-process. *)
Inductive Walk : process -> list line -> Prop :=
| Walk_process p reqs out :
    software_reqs (fields_of p) reqs ->
    WalkSteps (steps_of p) out ->
    Walk p (package_lines (fields_of p) reqs ++ out)%list
with WalkSteps : list WorkflowStep -> list line -> Prop :=
| WalkSteps_nil : WalkSteps [] []
| WalkSteps_cons step rest reqs q out_q out_rest :
    software_reqs (step_fields step) reqs ->
    sub_process step q ->
    Walk q out_q ->
    WalkSteps rest out_rest ->
    WalkSteps (step :: rest)
      (package_lines (step_fields step) reqs ++ out_q ++ out_rest)%list.

End Walk.

Arguments CommandLineTool {LoadingOptions} f.
Arguments ExpressionTool {LoadingOptions} f.
Arguments Workflow {LoadingOptions} f steps.
Arguments Step {LoadingOptions} f run.
Arguments RunStr {LoadingOptions} uri.
Arguments RunProcess {LoadingOptions} p.

Scheme Walk_mutind := Minimality for Walk Sort Prop
  with WalkSteps_mutind := Minimality for WalkSteps Sort Prop.

End CiteExtract.

(** ** Concrete documents and stand-ins for the external parts *)
Module Demo.
Import Py Data Parser.
Local Open Scope py_scope.

(** *** A stand-in for the generated parser modules

    A mapping with ["$graph"] loads to the list of the objects of its
    elements, any other mapping to one object; the object keeps the
    mapping's entries as its attributes. *)
Definition load_one (yaml : val) : M val :=
  fun h =>
    match as_mapping h yaml with
    | Some d => alloc (OInst "Process" ["id"; "cwlVersion"] d) h
    | None => (h, Raise (ValidationException (Text "not a mapping")))
    end.

Fixpoint load_each (els : list val) : M (list val) :=
  match els with
  | [] => ret []
  | el :: rest =>
      r <- load_one el ;;
      rs <- load_each rest ;;
      ret (r :: rs)
  end.

Definition demo_load (m : cwl_module) (yaml : val) (uri : string)
    (loadingOptions : val) : M val :=
  fun h =>
    match getitem h yaml "$graph" with
    | Ok g =>
        match as_sequence h g with
        | Some els => (rs <- load_each els ;; alloc (OList rs)) h
        | None => (h, Raise (ValidationException (Text "not a sequence")))
        end
    | Raise _ => load_one yaml h
    end.

(** A parser module that must not be reached. *)
Definition unreachable_load (m : cwl_module) (yaml : val) (uri : string)
    (loadingOptions : val) : M val :=
  raise (OtherError "unreachable").

(** [demo_load] for the module [m], [unreachable_load] for the others. *)
Definition only (m : cwl_module) (m' : cwl_module) : val -> string -> val -> M val :=
  match m, m' with
  | cwl_v1_0, cwl_v1_0 | cwl_v1_1, cwl_v1_1 | cwl_v1_2, cwl_v1_2 =>
      demo_load m'
  | _, _ => unreachable_load m'
  end.

(** *** Documents in the store *)

Definition tool (id_ : string) : dict :=
  [("id", VStr id_); ("class", VStr "CommandLineTool")].

(** A single tool: [{cwlVersion: v1.1, id: tool, class: CommandLineTool}]. *)
Definition single_doc : heap :=
  list_to_map
    [(1%positive, ODict (("cwlVersion", VStr "v1.1") :: tool "tool"))].

(** [{cwlVersion: v1.0, $graph: [{id: "#main", ...}, {id: other, ...}]}]:
    the document at 1, its graph at 2, the elements at 3 and 4. *)
Definition graph_doc : heap :=
  list_to_map
    [(1%positive, ODict [("cwlVersion", VStr "v1.0"); ("$graph", VRef 2%positive)]);
     (2%positive, OList [VRef 3%positive; VRef 4%positive]);
     (3%positive, ODict (tool "#main"));
     (4%positive, ODict (tool "other"))].

(** The same graph, its main element already carrying the version. *)
Definition versioned_graph_doc : heap :=
  list_to_map
    [(1%positive, ODict [("cwlVersion", VStr "v1.0"); ("$graph", VRef 2%positive)]);
     (2%positive, OList [VRef 3%positive; VRef 4%positive]);
     (3%positive, ODict (tool "#main" ++ [("cwlVersion", VStr "v1.0")])%list);
     (4%positive, ODict (tool "other"))].

(** [{cwlVersion: v1.0, $graph: [&m {id: main, ...}], default: *m}]: the
    main element is also the value of another key. *)
Definition aliased_graph_doc : heap :=
  list_to_map
    [(1%positive, ODict [("cwlVersion", VStr "v1.0"); ("$graph", VRef 2%positive);
                         ("default", VRef 3%positive)]);
     (2%positive, OList [VRef 3%positive]);
     (3%positive, ODict (tool "main"))].

(** [{cwlVersion: v1.0, $graph: [{id: other, ...}]}]: no main element. *)
Definition no_main_doc : heap :=
  list_to_map
    [(1%positive, ODict [("cwlVersion", VStr "v1.0"); ("$graph", VRef 2%positive)]);
     (2%positive, OList [VRef 3%positive]);
     (3%positive, ODict (tool "other"))].

(** [{$graph: [{id: other, ...}]}]: no version and no main element. *)
Definition unversioned_graph_doc : heap :=
  list_to_map
    [(1%positive, ODict [("$graph", VRef 2%positive)]);
     (2%positive, OList [VRef 3%positive]);
     (3%positive, ODict (tool "other"))].

(** [{$graph: [{class: CommandLineTool}]}]: no version, and an element
    without an id. *)
Definition unversioned_no_id_doc : heap :=
  list_to_map
    [(1%positive, ODict [("$graph", VRef 2%positive)]);
     (2%positive, OList [VRef 3%positive]);
     (3%positive, ODict [("class", VStr "CommandLineTool")])].

(** [{cwlVersion: v1.0, $graph: [{class: CommandLineTool}]}]: an element
    without an id. *)
Definition no_id_doc : heap :=
  list_to_map
    [(1%positive, ODict [("cwlVersion", VStr "v1.0"); ("$graph", VRef 2%positive)]);
     (2%positive, OList [VRef 3%positive]);
     (3%positive, ODict [("class", VStr "CommandLineTool")])].

(** [{cwlVersion: null, id: tool, class: CommandLineTool}]. *)
Definition null_version_doc : heap :=
  list_to_map [(1%positive, ODict (("cwlVersion", VNone) :: tool "tool"))].

(** [{cwlVersion: v2.0, id: tool, class: CommandLineTool}]. *)
Definition v2_doc : heap :=
  list_to_map
    [(1%positive, ODict (("cwlVersion", VStr "v2.0") :: tool "tool"))].

(** *** A stand-in for the YAML reader: it reads one text, the graph
    document above written in flow style. *)
Definition graph_text : string :=
  "{cwlVersion: v1.0, $graph: [{id: '#main', class: CommandLineTool}, {id: other, class: CommandLineTool}]}".

Definition demo_yaml_load (text : string) : M val :=
  if String.eqb text graph_text then
    main <- alloc (ODict (tool "#main")) ;;
    other <- alloc (ODict (tool "other")) ;;
    graph <- alloc (OList [main; other]) ;;
    alloc (ODict [("cwlVersion", VStr "v1.0"); ("$graph", graph)])
  else raise (OtherError "YAMLError").

(** A YAML reader for plain scalars: the text is the value. *)
Definition scalar_yaml_load (text : string) : M val := ret (VStr text).

(** *** A graph of complete tools

    A CommandLineTool needs its class, its inputs and its outputs.  The
    stand-in below for a generated parser module refuses a mapping that
    lacks one of them, and a graph with such an element; the class of its
    objects has ["cwlVersion"] among its [attrs]. *)
Definition CommandLineTool_attrs : list string :=
  ["id"; "inputs"; "outputs"; "requirements"; "hints"; "label"; "doc";
   "cwlVersion"; "class"; "baseCommand"; "arguments"; "stdin"; "stderr";
   "stdout"; "successCodes"; "temporaryFailCodes"; "permanentFailCodes"].

Definition is_sequence_entry (h : heap) (key : string) (d : dict) : bool :=
  match dict_get key d with
  | Some v => match as_sequence h v with Some _ => true | None => false end
  | None => false
  end.

Definition load_tool (yaml : val) : M val :=
  fun h =>
    match as_mapping h yaml with
    | Some d =>
        if negb (eq_string (default VNone (dict_get "class" d)) "CommandLineTool")
        then (h, Raise (ValidationException (Text "missing or wrong class")))
        else if negb (is_sequence_entry h "inputs" d)
        then (h, Raise (ValidationException
                          (Text "missing required field inputs")))
        else if negb (is_sequence_entry h "outputs" d)
        then (h, Raise (ValidationException
                          (Text "missing required field outputs")))
        else alloc (OInst "CommandLineTool" CommandLineTool_attrs d) h
    | None => (h, Raise (ValidationException (Text "not a mapping")))
    end.

Fixpoint load_tools (els : list val) : M (list val) :=
  match els with
  | [] => ret []
  | el :: rest =>
      r <- load_tool el ;;
      rs <- load_tools rest ;;
      ret (r :: rs)
  end.

(** A mapping with ["$graph"] loads to the list of the tools of its
    elements, any other mapping to one tool. *)
Definition checked_load (m : cwl_module) (yaml : val) (uri : string)
    (loadingOptions : val) : M val :=
  fun h =>
    match getitem h yaml "$graph" with
    | Ok g =>
        match as_sequence h g with
        | Some els => (rs <- load_tools els ;; alloc (OList rs)) h
        | None => (h, Raise (ValidationException (Text "not a sequence")))
        end
    | Raise _ => load_tool yaml h
    end.

Definition valid_tool (id_ : string) (inputs outputs : val) : dict :=
  [("id", VStr id_); ("class", VStr "CommandLineTool");
   ("inputs", inputs); ("outputs", outputs)].

Definition valid_graph_text : string :=
  "{cwlVersion: v1.0, $graph: [{id: '#main', class: CommandLineTool, inputs: [], outputs: []}, {id: other, class: CommandLineTool, inputs: [], outputs: []}]}".

(** The YAML reader on the two graph texts: every [[]] is a list of its
    own.  After [valid_graph_text] the two tools are at 3 and 6, the graph
    at 7 and the document at 8. *)
Definition valid_yaml_load (text : string) : M val :=
  if String.eqb text valid_graph_text then
    main_inputs <- alloc (OList []) ;;
    main_outputs <- alloc (OList []) ;;
    main <- alloc (ODict (valid_tool "#main" main_inputs main_outputs)) ;;
    other_inputs <- alloc (OList []) ;;
    other_outputs <- alloc (OList []) ;;
    other <- alloc (ODict (valid_tool "other" other_inputs other_outputs)) ;;
    graph <- alloc (OList [main; other]) ;;
    alloc (ODict [("cwlVersion", VStr "v1.0"); ("$graph", graph)])
  else demo_yaml_load text.

(** *** Objects to serialize

    A stand-in for the generated classes: every object is a Process of
    its module, and its [save] gives a mapping with the id, the class and,
    when the object has one, the cwlVersion. *)
Record demo_object := {
  its_module : cwl_module;
  its_id : string;
  its_cwlVersion : option string
}.

Definition demo_is_Process (o : demo_object) : bool := true.

Definition demo_save (o : demo_object) (top : bool) (base_url : string)
    (relative_uris : bool) : result (data demo_object) :=
  Ok (DDict ([("id", DStr (its_id o)); ("class", DStr "CommandLineTool")]
               ++ match its_cwlVersion o with
                  | Some v => [("cwlVersion", DStr v)]
                  | None => []
                  end)%list).

Definition tool_v1_0 : demo_object :=
  {| its_module := cwl_v1_0; its_id := "a"; its_cwlVersion := Some "v1.0" |}.
Definition tool_v1_2 : demo_object :=
  {| its_module := cwl_v1_2; its_id := "b"; its_cwlVersion := Some "v1.2" |}.
Definition tool_v1_1 : demo_object :=
  {| its_module := cwl_v1_1; its_id := "c"; its_cwlVersion := Some "v1.1" |}.
(** A process loaded as the [run] of a step: it has no cwlVersion. *)
Definition embedded_tool : demo_object :=
  {| its_module := cwl_v1_0; its_id := "step/run"; its_cwlVersion := None |}.

(** *** Processes to walk *)
Import CiteExtract.

Definition demo_package (p : hint) : result SoftwarePackage :=
  match p with
  | DDict kvs =>
      match entry "package" kvs with
      | Some (DStr s) => Ok {| package := s; version := None; specs := None |}
      | _ => Raise (ValidationException (Text "missing required field package"))
      end
  | _ => Raise (ValidationException (Text "not a SoftwarePackage"))
  end.

(** A stand-in for [load_field] with the SoftwareRequirement loader. *)
Definition demo_load_field (req : hint) (baseuri : string) (lo : unit)
  : result SoftwareRequirement :=
  match req with
  | DDict kvs =>
      match entry "packages" kvs with
      | Some (DList ps) =>
          let? l := each demo_package ps in Ok {| packages := l |}
      | _ => Raise (ValidationException (Text "missing required field packages"))
      end
  | _ => Raise (ValidationException (Text "not a SoftwareRequirement"))
  end.

Definition bwa : SoftwarePackage :=
  {| package := "bwa"; version := Some ["0.7.17"];
     specs := Some ["https://identifiers.org/rrid/RRID:SCR_010910"] |}.

Definition samtools_hint : hint :=
  DDict [("class", DStr "SoftwareRequirement");
         ("packages", DList [DDict [("package", DStr "samtools")]])].

Definition docker_hint : hint :=
  DDict [("class", DStr "DockerRequirement");
         ("dockerPull", DStr "debian:stable")].

Definition classless_hint : hint :=
  DDict [("packages", DList [DDict [("package", DStr "samtools")]])].

Definition bare (i : string) : fields unit :=
  {| id := Some i; requirements := None; hints := None; loadingOptions := tt |}.

Definition align_fields : fields unit :=
  {| id := Some "align.cwl";
     requirements := Some [OtherRequirement "InlineJavascriptRequirement";
                           ASoftwareRequirement {| packages := [bwa] |}];
     hints := Some [docker_hint; samtools_hint];
     loadingOptions := tt |}.

Definition align_tool : process unit := CommandLineTool align_fields.

Definition sort_tool : process unit :=
  CommandLineTool
    {| id := Some "sort.cwl"; requirements := None;
       hints := Some [samtools_hint]; loadingOptions := tt |}.

(** A stand-in for [load_document]: one file can be loaded. *)
Definition demo_load_document (uri : string) : result (process unit) :=
  if String.eqb uri "sort.cwl" then Ok sort_tool
  else Raise (OtherError "FileNotFoundError").

Definition pipeline : process unit :=
  Workflow (bare "pipeline.cwl")
    [Step (bare "pipeline.cwl#align") (RunProcess align_tool);
     Step (bare "pipeline.cwl#sort") (RunStr "sort.cwl")].

(** A workflow whose first step names a file that cannot be loaded. *)
Definition broken_pipeline : process unit :=
  Workflow (bare "broken.cwl")
    [Step (bare "broken.cwl#first") (RunStr "missing.cwl");
     Step align_fields (RunProcess sort_tool)].

(** What the walk of [pipeline] prints. *)
Definition pipeline_lines : list line :=
  [PrintId (Some "align.cwl");
   PrintPackage "bwa" (Some ["0.7.17"])
     (Some ["https://identifiers.org/rrid/RRID:SCR_010910"]);
   PrintId (Some "align.cwl"); PrintPackage "samtools" None None;
   PrintId (Some "sort.cwl"); PrintPackage "samtools" None None].

Definition samtools_requirement : SoftwareRequirement :=
  {| packages := [{| package := "samtools"; version := None; specs := None |}] |}.

(** Fields whose first hint has no ["class"]. *)
Definition classless_fields : fields unit :=
  {| id := Some "tool.cwl";
     requirements := Some [ASoftwareRequirement {| packages := [bwa] |}];
     hints := Some [classless_hint; samtools_hint];
     loadingOptions := tt |}.

(** A workflow whose only step runs the workflow's own file, and the
    loader that knows this file. *)
Definition looping : process unit :=
  Workflow (bare "loop.cwl") [Step (bare "loop.cwl#again") (RunStr "loop.cwl")].

Definition looping_load_document (uri : string) : result (process unit) :=
  if String.eqb uri "loop.cwl" then Ok looping
  else Raise (OtherError "FileNotFoundError").

(** A loader that knows [pipeline.cwl] and [sort.cwl]. *)
Definition pipeline_load_document (uri : string) : result (process unit) :=
  if String.eqb uri "pipeline.cwl" then Ok pipeline
  else demo_load_document uri.

(** The store after a parser module has loaded the two elements of a
    graph: the objects at 5 and 6, the module's list of them at 7.  The
    class of the second has no ["cwlVersion"] among its [attrs]. *)
Definition loaded_graph : heap :=
  list_to_map
    [(1%positive, ODict [("cwlVersion", VStr "v1.2"); ("$graph", VRef 2%positive)]);
     (2%positive, OList [VRef 3%positive; VRef 4%positive]);
     (3%positive, ODict (tool "#main"));
     (4%positive, ODict (tool "other"));
     (5%positive, OInst "CommandLineTool" ["id"; "cwlVersion"] [("id", VStr "#main")]);
     (6%positive, OInst "Part" ["id"] [("id", VStr "other")]);
     (7%positive, OList [VRef 5%positive; VRef 6%positive])].

(** A parser module that finds the two objects already loaded. *)
Definition loaded_graph_load (m : cwl_module) (yaml : val) (uri : string)
    (loadingOptions : val) : M val :=
  fun _ => (loaded_graph, Ok (VRef 7%positive)).

End Demo.

(** ** The loader: facts *)
Module ParserFacts.
Import Py Parser.
Local Open Scope py_scope.

Ltac unfold_M := unfold bind, reading, ret, raise in *.

Lemma dict_mem_get (k : string) (d : dict) :
  dict_mem k d = true <-> is_Some (dict_get k d).
Proof.
  unfold dict_mem, dict_keys. induction d as [|[k' v] d IH]; simpl.
  - split; [discriminate | intros [x Hx]; discriminate].
  - rewrite (String.eqb_sym k k'). destruct (String.eqb k' k); simpl.
    + split; eauto.
    + exact IH.
Qed.

Lemma dict_mem_false (k : string) (d : dict) :
  dict_mem k d = false <-> dict_get k d = None.
Proof.
  pose proof (dict_mem_get k d) as [H1 H2].
  destruct (dict_mem k d) eqn:Em, (dict_get k d) as [v|] eqn:Eg;
    split; intros E; try reflexivity; try discriminate.
  - destruct (H1 eq_refl) as [x Hx]. discriminate.
  - assert (false = true) by (apply H2; eauto). discriminate.
Qed.

Lemma dict_get_set (k : string) (v : val) (d : dict) :
  dict_get k (dict_set k v d) = Some v.
Proof.
  induction d as [|[k' v'] d IH]; simpl.
  - now rewrite String.eqb_refl.
  - destruct (String.eqb k' k) eqn:E; simpl; rewrite E; auto.
Qed.

Lemma dict_get_set_ne (k k' : string) (v : val) (d : dict) :
  k <> k' -> dict_get k' (dict_set k v d) = dict_get k' d.
Proof.
  intros Hne. induction d as [|[k0 v0] d IH]; simpl.
  - destruct (String.eqb_spec k k'); congruence.
  - destruct (String.eqb_spec k0 k) as [->|]; simpl.
    + destruct (String.eqb_spec k k'); congruence.
    + now rewrite IH.
Qed.

(** Writing a value leaves the dictionary as it was exactly when the
    value was already there. *)
Lemma dict_set_same (k : string) (v : val) (d : dict) :
  dict_set k v d = d <-> dict_get k d = Some v.
Proof.
  induction d as [|[k' v'] d IH]; simpl.
  - split; discriminate.
  - destruct (String.eqb k' k).
    + split; intros E; congruence.
    + split; intros E.
      * apply IH. congruence.
      * f_equal. now apply IH.
Qed.

Lemma as_mapping_inv (h : heap) (v : val) (d : dict) :
  as_mapping h v = Some d <-> exists l, v = VRef l /\ h !! l = Some (ODict d).
Proof.
  unfold as_mapping. split.
  - destruct v as [| | | |l]; try discriminate.
    destruct (h !! l) as [[]|] eqn:E; try discriminate.
    intros [= ->]. eauto.
  - intros (l & -> & ->). reflexivity.
Qed.

Lemma as_sequence_inv (h : heap) (v : val) (xs : list val) :
  as_sequence h v = Some xs <-> exists l, v = VRef l /\ h !! l = Some (OList xs).
Proof.
  unfold as_sequence. split.
  - destruct v as [| | | |l]; try discriminate.
    destruct (h !! l) as [[]|] eqn:E; try discriminate.
    intros [= ->]. eauto.
  - intros (l & -> & ->). reflexivity.
Qed.

Lemma getitem_Ok (h : heap) (v x : val) (k : string) :
  getitem h v k = Ok x <->
  exists d, as_mapping h v = Some d /\ dict_get k d = Some x.
Proof.
  unfold getitem. split.
  - destruct (as_mapping h v) as [d|]; try discriminate.
    destruct (dict_get k d) eqn:E; try discriminate.
    intros [= ->]. eauto.
  - intros (d & -> & ->). reflexivity.
Qed.

Lemma cwl_version_mapping (h : heap) (yaml : val) (d : dict) :
  as_mapping h yaml = Some d ->
  cwl_version h yaml = Ok (default VNone (dict_get "cwlVersion" d)).
Proof.
  intros Hd. unfold cwl_version, getitem. rewrite Hd.
  change (existsb (String.eqb "cwlVersion") (dict_keys d))
    with (dict_mem "cwlVersion" d).
  destruct (dict_mem "cwlVersion" d) eqn:E; simpl.
  - apply dict_mem_get in E as [x ->]. reflexivity.
  - apply dict_mem_false in E as ->. reflexivity.
Qed.

Lemma contains_mapping (h : heap) (yaml : val) (d : dict) (k : string) :
  as_mapping h yaml = Some d -> contains h yaml k = Ok (dict_mem k d).
Proof.
  intros (l & -> & Hl)%as_mapping_inv. simpl. now rewrite Hl.
Qed.

Lemma stripped_id_has_id (h : heap) (el : val) (s : string) :
  has_id h el s -> stripped_id h el = Ok (lstrip_hash s).
Proof.
  intros (d & Hd & Hi). unfold stripped_id, getitem. now rewrite Hd, Hi.
Qed.

Lemma stripped_id_mapping (h : heap) (el : val) (s : string) :
  stripped_id h el = Ok s -> exists d, as_mapping h el = Some d.
Proof.
  unfold stripped_id. destruct (getitem h el "id") as [x|] eqn:E; [|discriminate].
  apply getitem_Ok in E as (d & Hd & _). eauto.
Qed.

Lemma graph_search_mapping (h : heap) (id_ : string) (els : list val) (el : val) :
  graph_search h id_ els = Ok (Some el) ->
  In el els /\ exists d, as_mapping h el = Some d.
Proof.
  induction els as [|x els IH]; simpl; [discriminate|].
  destruct (stripped_id h x) as [s|] eqn:E; simpl; [|discriminate].
  destruct (String.eqb s id_).
  - intros [= ->]. split; [now left|]. eapply stripped_id_mapping, E.
  - intros H. destruct (IH H) as [Hin Hd]. split; [now right | exact Hd].
Qed.

Lemma get_id_from_graph_mapping (h : heap) (yaml el : val) (id_ : option string) :
  _get_id_from_graph h yaml id_ = Ok el ->
  exists l d, el = VRef l /\ h !! l = Some (ODict d).
Proof.
  unfold _get_id_from_graph.
  destruct (getitem h yaml "$graph") as [g|]; simpl; [|discriminate].
  destruct (iterate h g) as [els|]; simpl; [|discriminate].
  destruct (graph_search h _ els) as [[x|]|] eqn:E; simpl; try discriminate.
  - intros [= ->]. apply graph_search_mapping in E as [_ [d Hd]].
    apply as_mapping_inv in Hd as (l & -> & Hl). eauto.
  - destruct (graph_ids h els); simpl; discriminate.
Qed.

Lemma graph_search_first (h : heap) (id_ : option string)
    (pre post : list val) (el : val) (s : string) :
  Forall (other_id h id_) pre ->
  has_id h el s -> lstrip_hash s = requested id_ ->
  graph_search h (requested id_) (pre ++ el :: post) = Ok (Some el).
Proof.
  intros Hpre Hel Hs. induction Hpre as [|x pre (s' & Hx & Hne) _ IH]; simpl.
  - rewrite (stripped_id_has_id _ _ _ Hel). simpl. rewrite Hs.
    now rewrite String.eqb_refl.
  - rewrite (stripped_id_has_id _ _ _ Hx). simpl.
    destruct (String.eqb_spec (lstrip_hash s') (requested id_)); [contradiction|].
    exact IH.
Qed.

Lemma graph_search_none (h : heap) (id_ : option string) (els : list val) :
  Forall (other_id h id_) els ->
  graph_search h (requested id_) els = Ok None.
Proof.
  induction 1 as [|x els (s' & Hx & Hne) _ IH]; simpl; [reflexivity|].
  rewrite (stripped_id_has_id _ _ _ Hx). simpl.
  destruct (String.eqb_spec (lstrip_hash s') (requested id_)); [contradiction|].
  exact IH.
Qed.

Lemma graph_ids_has_id (h : heap) (els : list val) (ids : list string) :
  Forall2 (has_id h) els ids -> graph_ids h els = Ok ids.
Proof.
  induction 1 as [|x s els ids (d & Hd & Hi) _ IH]; simpl; [reflexivity|].
  unfold getitem. rewrite Hd, Hi. simpl. now rewrite IH.
Qed.

Lemma iterate_sequence (h : heap) (g : val) (els : list val) :
  as_sequence h g = Some els -> iterate h g = Ok els.
Proof.
  intros (l & -> & Hl)%as_sequence_inv. simpl. now rewrite Hl.
Qed.

Lemma setitem_mapping (h : heap) (l : loc) (d : dict) (k : string) (x : val) :
  h !! l = Some (ODict d) ->
  setitem (VRef l) k x h = (<[l := ODict (dict_set k x d)]> h, Ok tt).
Proof. intros Hl. unfold setitem. now rewrite Hl. Qed.

Lemma version_known_or_not (o : option val) :
  (exists m, o = Some (VStr (version_name m)))
  \/ (forall m, o <> Some (VStr (version_name m))).
Proof.
  destruct o as [[| | |s|]|]; try (right; intros m; discriminate).
  destruct (String.eqb_spec s "v1.0") as [->|H0]; [left; now exists cwl_v1_0|].
  destruct (String.eqb_spec s "v1.1") as [->|H1]; [left; now exists cwl_v1_1|].
  destruct (String.eqb_spec s "v1.2") as [->|H2]; [left; now exists cwl_v1_2|].
  right. intros [] [= ->]; contradiction.
Qed.

Section LoaderFacts.

Variable L : cwl_module -> val -> string -> val -> M val.

Lemma dispatch_version (m : cwl_module) (yaml : val) (uri : string) (lo : val) :
  dispatch L (VStr (version_name m)) yaml uri lo = L m yaml uri lo.
Proof. destruct m; reflexivity. Qed.

Lemma dispatch_unknown (version yaml : val) (uri : string) (lo : val) (h : heap) :
  (forall m, version <> VStr (version_name m)) ->
  exists msg, dispatch L version yaml uri lo h = (h, Raise (ValidationException msg)).
Proof.
  intros Hv. unfold dispatch.
  assert (Hne : forall m, eq_string version (version_name m) = false).
  { intros m. specialize (Hv m). destruct version as [| | |s|]; simpl; try reflexivity.
    destruct (String.eqb_spec s (version_name m)); congruence. }
  pose proof (Hne cwl_v1_0) as H0. pose proof (Hne cwl_v1_1) as H1.
  pose proof (Hne cwl_v1_2) as H2. simpl in H0, H1, H2. rewrite H0, H1, H2.
  destruct (is_none version); eauto.
Qed.

Lemma load_document_by_yaml_mapping (h : heap) (yaml : val) (d : dict)
    (uri : string) (lo : val) (id_ : option string) (load_all : bool) :
  as_mapping h yaml = Some d ->
  let version := default VNone (dict_get "cwlVersion" d) in
  load_document_by_yaml L yaml uri lo id_ load_all h =
  (y <- (if dict_mem "$graph" d && negb load_all
         then select_from_graph yaml id_ version
         else ret yaml) ;;
   r <- dispatch L version y uri lo ;;
   finish version r) h.
Proof.
  intros Hd version. unfold load_document_by_yaml.
  unfold bind at 1. unfold reading at 1.
  rewrite (cwl_version_mapping _ _ _ Hd).
  unfold bind at 1. unfold reading at 1.
  rewrite (contains_mapping _ _ _ _ Hd). reflexivity.
Qed.

Lemma select_from_graph_Ok (h : heap) (yaml : val) (id_ : option string)
    (version : val) (l : loc) (de : dict) :
  _get_id_from_graph h yaml id_ = Ok (VRef l) ->
  h !! l = Some (ODict de) ->
  select_from_graph yaml id_ version h =
  (<[l := ODict (dict_set "cwlVersion" version de)]> h, Ok (VRef l)).
Proof.
  intros Hg Hl. unfold select_from_graph, bind, reading, ret.
  rewrite Hg. now rewrite (setitem_mapping _ _ _ _ _ Hl).
Qed.

Lemma select_from_graph_Raise (h : heap) (yaml : val) (id_ : option string)
    (version : val) (e : exn) :
  _get_id_from_graph h yaml id_ = Raise e ->
  select_from_graph yaml id_ version h = (h, Raise e).
Proof.
  intros Hg. unfold select_from_graph, bind, reading. now rewrite Hg.
Qed.

End LoaderFacts.

(** C9 (amended).  [cwl_version] raises exactly when its argument is not a
    MutableMapping, and then a ValidationException; on a mapping it returns
    None when there is no ["cwlVersion"] key and the stored value unchanged
    otherwise, so it returns None exactly when the key is absent or the
    stored value is None. *)
Theorem cwl_version_spec (h : heap) (yaml : val) :
  (as_mapping h yaml = None ->
   cwl_version h yaml = Raise (ValidationException (Text "MutableMapping is required")))
  /\ (forall e, cwl_version h yaml = Raise e -> as_mapping h yaml = None)
  /\ (forall d, as_mapping h yaml = Some d ->
       (dict_mem "cwlVersion" d = false -> cwl_version h yaml = Ok VNone)
       /\ (forall v, dict_get "cwlVersion" d = Some v -> cwl_version h yaml = Ok v)
       /\ (cwl_version h yaml = Ok VNone <->
           dict_mem "cwlVersion" d = false \/ dict_get "cwlVersion" d = Some VNone)).
Proof.
  split; [|split].
  - intros Hn. unfold cwl_version. now rewrite Hn.
  - intros e He. destruct (as_mapping h yaml) as [d|] eqn:Hd; [|reflexivity].
    rewrite (cwl_version_mapping _ _ _ Hd) in He. discriminate.
  - intros d Hd. rewrite (cwl_version_mapping _ _ _ Hd).
    split; [|split].
    + intros ->%dict_mem_false. reflexivity.
    + intros v ->. reflexivity.
    + rewrite dict_mem_false.
      destruct (dict_get "cwlVersion" d) as [v|]; simpl.
      * split; [intros [= ->]; now right | intros [|[= ->]]; [discriminate | reflexivity]].
      * split; auto.
Qed.

(** C9, as stated, fails on [{cwlVersion: null, ...}]: the mapping has the
    key and [cwl_version] returns None. *)
Lemma cwl_version_null_key :
  as_mapping Demo.null_version_doc (VRef 1%positive)
    = Some (("cwlVersion", VNone) :: Demo.tool "tool")
  /\ dict_mem "cwlVersion" (("cwlVersion", VNone) :: Demo.tool "tool") = true
  /\ cwl_version Demo.null_version_doc (VRef 1%positive) = Ok VNone.
Proof. repeat split. Qed.

(** C1 (amended).  A mapping whose cwlVersion is the version of the
    parser module [m] is forwarded to [m] and to no other module: with no
    ["$graph"] key, or with [load_all], the document itself; otherwise the
    graph element that was selected, its cwlVersion set.  When the graph
    selection raises, its exception is the outcome and nothing is
    forwarded.  Whatever the other two modules are, the outcome is the
    same. *)
Theorem load_document_by_yaml_forwards
    (L : cwl_module -> val -> string -> val -> M val)
    (h : heap) (yaml : val) (d : dict) (m : cwl_module)
    (uri : string) (lo : val) (id_ : option string) (load_all : bool) :
  as_mapping h yaml = Some d ->
  dict_get "cwlVersion" d = Some (VStr (version_name m)) ->
  let version := VStr (version_name m) in
  let outcome := load_document_by_yaml L yaml uri lo id_ load_all h in
  (dict_mem "$graph" d && negb load_all = false ->
   outcome = (r <- L m yaml uri lo ;; finish version r) h)
  /\ (dict_mem "$graph" d && negb load_all = true ->
      forall l de,
        _get_id_from_graph h yaml id_ = Ok (VRef l) ->
        h !! l = Some (ODict de) ->
        outcome =
        (r <- L m (VRef l) uri lo ;; finish version r)
          (<[l := ODict (dict_set "cwlVersion" version de)]> h))
  /\ (dict_mem "$graph" d && negb load_all = true ->
      forall e, _get_id_from_graph h yaml id_ = Raise e ->
                outcome = (h, Raise e))
  /\ (forall L' : cwl_module -> val -> string -> val -> M val,
        (forall y u o h', L' m y u o h' = L m y u o h') ->
        load_document_by_yaml L' yaml uri lo id_ load_all h = outcome).
Proof.
  intros Hd Hv version outcome. subst outcome.
  assert (Hdef : default VNone (dict_get "cwlVersion" d) = version)
    by now rewrite Hv.
  pose proof (load_document_by_yaml_mapping L h yaml d uri lo id_ load_all Hd)
    as HL. simpl in HL. rewrite Hdef in HL.
  repeat split.
  - intros Hg. rewrite HL, Hg. unfold bind at 1. unfold ret at 1.
    unfold version. now rewrite dispatch_version.
  - intros Hg l de Hsel Hl. rewrite HL, Hg. unfold bind at 1.
    rewrite (select_from_graph_Ok _ _ _ _ _ _ Hsel Hl).
    unfold version. now rewrite dispatch_version.
  - intros Hg e Hsel. rewrite HL, Hg. unfold bind at 1.
    now rewrite (select_from_graph_Raise _ _ _ _ _ Hsel).
  - intros L' Hsame. rewrite HL.
    pose proof (load_document_by_yaml_mapping L' h yaml d uri lo id_ load_all Hd)
      as HL'. simpl in HL'. rewrite Hdef in HL'. rewrite HL'.
    unfold bind.
    destruct ((if dict_mem "$graph" d && negb load_all
               then select_from_graph yaml id_ version else ret yaml) h)
      as [h1 [y|e]]; [|reflexivity].
    unfold version. rewrite !dispatch_version. now rewrite Hsame.
Qed.

Lemma load_document_by_yaml_forwards_witness :
  load_document_by_yaml Demo.demo_load (VRef 1%positive) "file:///tool.cwl"
    VNone None false Demo.single_doc
  = (r <- Demo.demo_load cwl_v1_1 (VRef 1%positive) "file:///tool.cwl" VNone ;;
     finish (VStr "v1.1") r) Demo.single_doc.
Proof.
  exact (proj1 (load_document_by_yaml_forwards Demo.demo_load Demo.single_doc
                  (VRef 1%positive) _ cwl_v1_1 "file:///tool.cwl" VNone None
                  false eq_refl eq_refl) eq_refl).
Defined.

(** C1, as stated, fails on a v1.0 graph document without a main element:
    the call raises GraphTargetMissingException and no parser module is
    reached, whichever modules are given. *)
Lemma load_document_by_yaml_without_forwarding :
  cwl_version Demo.no_main_doc (VRef 1%positive) = Ok (VStr "v1.0")
  /\ load_document_by_yaml Demo.unreachable_load (VRef 1%positive)
       "file:///doc.cwl" VNone None false Demo.no_main_doc
     = (Demo.no_main_doc, Raise (graph_target_missing ["other"]))
  /\ load_document_by_yaml Demo.demo_load (VRef 1%positive)
       "file:///doc.cwl" VNone None false Demo.no_main_doc
     = (Demo.no_main_doc, Raise (graph_target_missing ["other"])).
Proof. repeat split; vm_compute; reflexivity. Qed.

(** C2 (amended).  A mapping whose cwlVersion is absent or is none of
    "v1.0", "v1.1", "v1.2" never gives a result: the call raises, and it
    raises a ValidationException unless the graph selection raised before
    the version was looked at, in which case that exception is the one
    raised.  A call that returns a result was given a mapping with one of
    the three versions. *)
Theorem load_document_by_yaml_rejects
    (L : cwl_module -> val -> string -> val -> M val)
    (h : heap) (yaml : val)
    (uri : string) (lo : val) (id_ : option string) (load_all : bool) :
  let outcome := load_document_by_yaml L yaml uri lo id_ load_all h in
  (forall d,
      as_mapping h yaml = Some d ->
      (forall m, dict_get "cwlVersion" d <> Some (VStr (version_name m))) ->
      (exists h' e, outcome = (h', Raise e))
      /\ (dict_mem "$graph" d && negb load_all = false ->
          exists msg, outcome = (h, Raise (ValidationException msg)))
      /\ (forall el, _get_id_from_graph h yaml id_ = Ok el ->
                     exists h' msg, outcome = (h', Raise (ValidationException msg)))
      /\ (dict_mem "$graph" d && negb load_all = true ->
          forall e, _get_id_from_graph h yaml id_ = Raise e ->
                    outcome = (h, Raise e)))
  /\ (forall h' r,
        outcome = (h', Ok r) ->
        exists d m, as_mapping h yaml = Some d
                    /\ dict_get "cwlVersion" d = Some (VStr (version_name m))).
Proof.
  intros outcome.
  assert (Hmain : forall d,
      as_mapping h yaml = Some d ->
      (forall m, dict_get "cwlVersion" d <> Some (VStr (version_name m))) ->
      (dict_mem "$graph" d && negb load_all = false ->
          exists msg, outcome = (h, Raise (ValidationException msg)))
      /\ (forall el, _get_id_from_graph h yaml id_ = Ok el ->
                     exists h' msg, outcome = (h', Raise (ValidationException msg)))
      /\ (dict_mem "$graph" d && negb load_all = true ->
          forall e, _get_id_from_graph h yaml id_ = Raise e ->
                    outcome = (h, Raise e))).
  { intros d Hd Hv. subst outcome.
    rewrite (load_document_by_yaml_mapping L h yaml d uri lo id_ load_all Hd).
    simpl.
    assert (Hne : forall m,
               default VNone (dict_get "cwlVersion" d) <> VStr (version_name m)).
    { intros m E. apply (Hv m). destruct (dict_get "cwlVersion" d); simpl in E;
        [congruence | discriminate]. }
    split; [|split].
    - intros ->. unfold bind at 1. unfold ret at 1.
      destruct (dispatch_unknown L _ yaml uri lo h Hne) as [msg Hm].
      exists msg. unfold bind. now rewrite Hm.
    - intros el Hsel.
      destruct (get_id_from_graph_mapping _ _ _ _ Hsel) as (l & de & -> & Hl).
      destruct (dict_mem "$graph" d && negb load_all).
      + unfold bind. rewrite (select_from_graph_Ok _ _ _ _ _ _ Hsel Hl).
        match goal with |- context [dispatch L ?v ?y uri lo ?h1] =>
          destruct (dispatch_unknown L v y uri lo h1 Hne) as [msg Hm] end.
        eexists _, msg. now rewrite Hm.
      + unfold bind at 1. unfold ret at 1.
        destruct (dispatch_unknown L _ yaml uri lo h Hne) as [msg Hm].
        exists h, msg. unfold bind. now rewrite Hm.
    - intros -> e Hsel. unfold bind at 1.
      now rewrite (select_from_graph_Raise _ _ _ _ _ Hsel). }
  split.
  - intros d Hd Hv. destruct (Hmain d Hd Hv) as (H1 & H2 & H3).
    split; [|auto].
    destruct (dict_mem "$graph" d && negb load_all) eqn:Hg.
    + destruct (_get_id_from_graph h yaml id_) as [el|e] eqn:Hsel.
      * destruct (H2 el eq_refl) as (h' & msg & ->). eauto.
      * rewrite (H3 eq_refl e eq_refl). eauto.
    + destruct (H1 eq_refl) as (msg & ->). eauto.
  - intros h' r Hout.
    destruct (as_mapping h yaml) as [d|] eqn:Hd.
    + destruct (version_known_or_not (dict_get "cwlVersion" d)) as [[m Hm]|Hv'].
      { eauto. }
      exfalso. destruct (Hmain d eq_refl Hv') as (H1 & H2 & H3).
      destruct (dict_mem "$graph" d && negb load_all) eqn:Hg.
      * destruct (_get_id_from_graph h yaml id_) as [el|e] eqn:Hsel.
        -- destruct (H2 el eq_refl) as (h'' & msg & E). congruence.
        -- rewrite (H3 eq_refl e eq_refl) in Hout. discriminate.
      * destruct (H1 eq_refl) as (msg & E). congruence.
    + exfalso. subst outcome. unfold load_document_by_yaml in Hout.
      unfold bind at 1 in Hout. unfold reading at 1 in Hout.
      unfold cwl_version in Hout. rewrite Hd in Hout. discriminate.
Qed.

Lemma load_document_by_yaml_rejects_witness :
  exists msg,
    load_document_by_yaml Demo.demo_load (VRef 1%positive) "file:///tool.cwl"
      VNone None false Demo.v2_doc
    = (Demo.v2_doc, Raise (ValidationException msg)).
Proof.
  refine (proj1 (proj2
            (proj1 (load_document_by_yaml_rejects Demo.demo_load Demo.v2_doc
                      (VRef 1%positive) "file:///tool.cwl" VNone None false)
               _ eq_refl _)) eq_refl).
  intros []; discriminate.
Defined.

(** C2, as stated, fails on a graph document with neither a cwlVersion nor
    a main element: the exception is GraphTargetMissingException, raised by
    the graph selection, and not a ValidationException.  When the graph
    element has no id either, the exception is KeyError. *)
Lemma load_document_by_yaml_other_exception :
  cwl_version Demo.unversioned_graph_doc (VRef 1%positive) = Ok VNone
  /\ load_document_by_yaml Demo.demo_load (VRef 1%positive)
       "file:///doc.cwl" VNone None false Demo.unversioned_graph_doc
     = (Demo.unversioned_graph_doc, Raise (graph_target_missing ["other"]))
  /\ (forall msg, graph_target_missing ["other"] <> ValidationException msg)
  /\ cwl_version Demo.unversioned_no_id_doc (VRef 1%positive) = Ok VNone
  /\ load_document_by_yaml Demo.demo_load (VRef 1%positive)
       "file:///doc.cwl" VNone None false Demo.unversioned_no_id_doc
     = (Demo.unversioned_no_id_doc, Raise (KeyError "id")).
Proof.
  repeat split; try (vm_compute; reflexivity). discriminate.
Qed.

Lemma other_ids (h : heap) (id_ : option string) (els : list val)
    (ids : list string) :
  Forall2 (has_id h) els ids ->
  Forall (fun s => lstrip_hash s <> requested id_) ids ->
  Forall (other_id h id_) els.
Proof.
  induction 1 as [|x s els ids Hx _ IH]; intros Hne; [constructor|].
  inversion Hne; subst. constructor; [exists s; auto | auto].
Qed.

Lemma get_id_from_graph_first (h : heap) (yaml g : val) (d : dict)
    (id_ : option string) (pre post : list val) (el : val) (s : string) :
  as_mapping h yaml = Some d ->
  dict_get "$graph" d = Some g ->
  as_sequence h g = Some (pre ++ el :: post)%list ->
  Forall (other_id h id_) pre ->
  has_id h el s -> lstrip_hash s = requested id_ ->
  _get_id_from_graph h yaml id_ = Ok el.
Proof.
  intros Hd Hg Hels Hpre Hel Hs. unfold _get_id_from_graph, getitem.
  rewrite Hd, Hg. simpl. rewrite (iterate_sequence _ _ _ Hels). simpl.
  change (match id_ with Some s0 => s0 | None => "main" end)
    with (requested id_).
  now rewrite (graph_search_first h id_ pre post el s Hpre Hel Hs).
Qed.

Lemma get_id_from_graph_missing (h : heap) (yaml g : val) (d : dict)
    (id_ : option string) (els : list val) (ids : list string) :
  as_mapping h yaml = Some d ->
  dict_get "$graph" d = Some g ->
  as_sequence h g = Some els ->
  Forall2 (has_id h) els ids ->
  Forall (fun s => lstrip_hash s <> requested id_) ids ->
  _get_id_from_graph h yaml id_ = Raise (graph_target_missing ids).
Proof.
  intros Hd Hg Hels Hids Hne. unfold _get_id_from_graph, getitem.
  rewrite Hd, Hg. simpl. rewrite (iterate_sequence _ _ _ Hels). simpl.
  change (match id_ with Some s0 => s0 | None => "main" end)
    with (requested id_).
  rewrite (graph_search_none h id_ els (other_ids _ _ _ _ Hids Hne)). simpl.
  now rewrite (graph_ids_has_id _ _ _ Hids).
Qed.

(** C3 (amended).  With [load_all] false, on a mapping whose ["$graph"] is
    a sequence: the loader selects the first element whose id, leading
    '#' characters stripped, is the requested one (["main"] by default),
    given that the elements before it are mappings with a string id; it
    hands that element, its cwlVersion set, to the version dispatch.  When
    every element is a mapping with a string id and none is the requested
    one, it raises GraphTargetMissingException, listing the ids. *)
Theorem load_document_by_yaml_selects
    (L : cwl_module -> val -> string -> val -> M val)
    (h : heap) (yaml g : val) (d : dict) (els : list val)
    (uri : string) (lo : val) (id_ : option string) :
  as_mapping h yaml = Some d ->
  dict_get "$graph" d = Some g ->
  as_sequence h g = Some els ->
  let version := default VNone (dict_get "cwlVersion" d) in
  (forall pre l de post s,
      els = (pre ++ VRef l :: post)%list ->
      Forall (other_id h id_) pre ->
      h !! l = Some (ODict de) ->
      dict_get "id" de = Some (VStr s) ->
      lstrip_hash s = requested id_ ->
      _get_id_from_graph h yaml id_ = Ok (VRef l)
      /\ load_document_by_yaml L yaml uri lo id_ false h
         = (r <- dispatch L version (VRef l) uri lo ;; finish version r)
             (<[l := ODict (dict_set "cwlVersion" version de)]> h))
  /\ (forall ids,
        Forall2 (has_id h) els ids ->
        Forall (fun s => lstrip_hash s <> requested id_) ids ->
        _get_id_from_graph h yaml id_ = Raise (graph_target_missing ids)
        /\ load_document_by_yaml L yaml uri lo id_ false h
           = (h, Raise (graph_target_missing ids))).
Proof.
  intros Hd Hg Hels version.
  assert (Hmem : dict_mem "$graph" d && negb false = true).
  { rewrite andb_true_r. apply dict_mem_get. rewrite Hg. eauto. }
  pose proof (load_document_by_yaml_mapping L h yaml d uri lo id_ false Hd)
    as HL. simpl in HL. rewrite andb_true_r in Hmem, HL.
  rewrite Hmem in HL. fold version in HL.
  split.
  - intros pre l de post s -> Hpre Hl Hi Hs.
    assert (Hsel : _get_id_from_graph h yaml id_ = Ok (VRef l)).
    { eapply get_id_from_graph_first; eauto.
      exists de. split; [|exact Hi]. apply as_mapping_inv. eauto. }
    split; [exact Hsel|]. rewrite HL. unfold bind at 1.
    now rewrite (select_from_graph_Ok _ _ _ _ _ _ Hsel Hl).
  - intros ids Hids Hne.
    assert (Hsel : _get_id_from_graph h yaml id_ = Raise (graph_target_missing ids))
      by (eapply get_id_from_graph_missing; eauto).
    split; [exact Hsel|]. rewrite HL. unfold bind at 1.
    now rewrite (select_from_graph_Raise _ _ _ _ _ Hsel).
Qed.

Lemma load_document_by_yaml_selects_witness :
  _get_id_from_graph Demo.graph_doc (VRef 1%positive) None = Ok (VRef 3%positive)
  /\ load_document_by_yaml Demo.demo_load (VRef 1%positive) "file:///doc.cwl"
       VNone None false Demo.graph_doc
     = (r <- dispatch Demo.demo_load (VStr "v1.0") (VRef 3%positive)
               "file:///doc.cwl" VNone ;;
        finish (VStr "v1.0") r)
         (<[3%positive :=
              ODict (dict_set "cwlVersion" (VStr "v1.0") (Demo.tool "#main"))]>
            Demo.graph_doc).
Proof.
  exact (proj1 (load_document_by_yaml_selects Demo.demo_load Demo.graph_doc
                  (VRef 1%positive) (VRef 2%positive) _ _ "file:///doc.cwl"
                  VNone None eq_refl eq_refl eq_refl)
           [] 3%positive (Demo.tool "#main") [VRef 4%positive] "#main"
           eq_refl (List.Forall_nil _) eq_refl eq_refl eq_refl).
Defined.

(** C3, as stated, fails on a graph whose element has no id: no element
    has the requested id, and the exception is KeyError, not
    GraphTargetMissingException. *)
Lemma load_document_by_yaml_graph_key_error :
  _get_id_from_graph Demo.no_id_doc (VRef 1%positive) None
    = Raise (KeyError "id")
  /\ load_document_by_yaml Demo.demo_load (VRef 1%positive)
       "file:///doc.cwl" VNone None false Demo.no_id_doc
     = (Demo.no_id_doc, Raise (KeyError "id")).
Proof. split; vm_compute; reflexivity. Qed.

(** C10 (amended).  With [load_all] false, when the graph selection
    returns an element, [load_document_by_yaml] writes the top-level
    version under the element's ["cwlVersion"] key before the version
    dispatch and the parser module run; it writes nothing else.  The
    caller's store is then the one it was exactly when the element already
    stored that value under ["cwlVersion"]. *)
Theorem load_document_by_yaml_stamps_element
    (L : cwl_module -> val -> string -> val -> M val)
    (h : heap) (yaml : val) (d : dict)
    (uri : string) (lo : val) (id_ : option string) (l : loc) (de : dict) :
  as_mapping h yaml = Some d ->
  dict_mem "$graph" d = true ->
  _get_id_from_graph h yaml id_ = Ok (VRef l) ->
  h !! l = Some (ODict de) ->
  let version := default VNone (dict_get "cwlVersion" d) in
  let h1 := <[l := ODict (dict_set "cwlVersion" version de)]> h in
  load_document_by_yaml L yaml uri lo id_ false h
    = (r <- dispatch L version (VRef l) uri lo ;; finish version r) h1
  /\ (forall m, version = VStr (version_name m) ->
       load_document_by_yaml L yaml uri lo id_ false h
       = (r <- L m (VRef l) uri lo ;; finish version r) h1)
  /\ getitem h1 (VRef l) "cwlVersion" = Ok version
  /\ (forall k, k <> "cwlVersion" ->
       getitem h1 (VRef l) k = getitem h (VRef l) k)
  /\ (forall l', l' <> l -> h1 !! l' = h !! l')
  /\ (h1 = h <-> dict_get "cwlVersion" de = Some version).
Proof.
  intros Hd Hmem Hsel Hl version h1.
  pose proof (load_document_by_yaml_mapping L h yaml d uri lo id_ false Hd)
    as HL. simpl in HL. rewrite Hmem in HL. simpl in HL. fold version in HL.
  assert (Hload : load_document_by_yaml L yaml uri lo id_ false h
                  = (r <- dispatch L version (VRef l) uri lo ;; finish version r) h1).
  { rewrite HL. unfold bind at 1.
    now rewrite (select_from_graph_Ok _ _ _ _ _ _ Hsel Hl). }
  split; [exact Hload|]. split; [|split; [|split; [|split]]].
  - intros m Hm. rewrite Hload, Hm. now rewrite dispatch_version.
  - unfold getitem, as_mapping, h1. rewrite lookup_insert_eq.
    now rewrite dict_get_set.
  - intros k Hk. unfold getitem, as_mapping, h1.
    rewrite lookup_insert_eq, Hl. rewrite dict_get_set_ne; auto.
  - intros l' Hne. unfold h1. now rewrite lookup_insert_ne.
  - unfold h1. split.
    + intros E. apply dict_set_same.
      assert (E' : (<[l := ODict (dict_set "cwlVersion" version de)]> h) !! l
                   = h !! l) by now rewrite E.
      rewrite lookup_insert_eq, Hl in E'. congruence.
    + intros E%dict_set_same. rewrite E. now apply insert_id.
Qed.

Lemma load_document_by_yaml_stamps_element_witness :
  getitem
    (<[3%positive :=
         ODict (dict_set "cwlVersion" (VStr "v1.0") (Demo.tool "#main"))]>
       Demo.graph_doc)
    (VRef 3%positive) "cwlVersion"
  = Ok (VStr "v1.0").
Proof.
  exact (proj1 (proj2 (proj2
           (load_document_by_yaml_stamps_element Demo.demo_load Demo.graph_doc
              (VRef 1%positive) _ "file:///doc.cwl" VNone None 3%positive
              (Demo.tool "#main") eq_refl eq_refl eq_refl eq_refl)))).
Defined.

(** C10, as stated, fails on a graph whose main element already carries
    the top-level version: the store after the call is the store before it
    when the parser module writes nothing, and the caller's four objects
    hold what they held when the module loads the element.  It fails too
    on a graph without a main element: the call raises and has written
    nothing. *)
Lemma load_document_by_yaml_leaves_unchanged :
  load_document_by_yaml Demo.unreachable_load (VRef 1%positive)
    "file:///doc.cwl" VNone None false Demo.versioned_graph_doc
  = (Demo.versioned_graph_doc, Raise (OtherError "unreachable"))
  /\ select_from_graph (VRef 1%positive) None (VStr "v1.0")
       Demo.versioned_graph_doc
     = (Demo.versioned_graph_doc, Ok (VRef 3%positive))
  /\ (let after :=
        fst (load_document_by_yaml Demo.demo_load (VRef 1%positive)
               "file:///doc.cwl" VNone None false Demo.versioned_graph_doc) in
      after !! 1%positive = Demo.versioned_graph_doc !! 1%positive
      /\ after !! 2%positive = Demo.versioned_graph_doc !! 2%positive
      /\ after !! 3%positive = Demo.versioned_graph_doc !! 3%positive
      /\ after !! 4%positive = Demo.versioned_graph_doc !! 4%positive)
  /\ fst (load_document_by_yaml Demo.demo_load (VRef 1%positive)
            "file:///doc.cwl" VNone None false Demo.no_main_doc)
     = Demo.no_main_doc.
Proof. repeat split; vm_compute; reflexivity. Qed.

(** The element is written in place: what the caller reaches through
    another reference to it has the version too. *)
Lemma stamp_seen_through_alias :
  let after :=
    fst (load_document_by_yaml Demo.demo_load (VRef 1%positive)
           "file:///doc.cwl" VNone None false Demo.aliased_graph_doc) in
  getitem Demo.aliased_graph_doc (VRef 1%positive) "default" = Ok (VRef 3%positive)
  /\ getitem Demo.aliased_graph_doc (VRef 3%positive) "cwlVersion"
     = Raise (KeyError "cwlVersion")
  /\ getitem after (VRef 1%positive) "default" = Ok (VRef 3%positive)
  /\ getitem after (VRef 3%positive) "cwlVersion" = Ok (VStr "v1.0").
Proof. repeat split; vm_compute; reflexivity. Qed.

Section LoadDocument.

Variable L : cwl_module -> val -> string -> val -> M val.
Variable yaml_load : string -> M val.
Variable file_uri_getcwd : string.

(** A string is read and loaded with [load_all] false, whatever
    [load_all] was given. *)
Lemma load_document_of_string (text : string) (baseuri : string) (lo : val)
    (id_ : option string) (load_all : bool) :
  load_document L yaml_load file_uri_getcwd (VStr text) (Some baseuri) lo id_
    load_all
  = load_document_by_string L yaml_load text baseuri lo id_ false.
Proof. reflexivity. Qed.

(** A YAML object is loaded with the [load_all] that was given. *)
Lemma load_document_of_mapping (l : loc) (baseuri : string) (lo : val)
    (id_ : option string) (load_all : bool) :
  load_document L yaml_load file_uri_getcwd (VRef l) (Some baseuri) lo id_
    load_all
  = load_document_by_yaml L (VRef l) baseuri lo id_ load_all.
Proof. reflexivity. Qed.

End LoadDocument.

(** The parser module that checks its tools refuses the graph whose tools
    have no inputs and no outputs, on every path. *)
Lemma checked_load_refuses_incomplete_tools :
  snd (load_document Demo.checked_load Demo.valid_yaml_load "file:///cwd"
         (VStr Demo.graph_text) (Some "file:///cwd/") VNone None true ∅)
  = Raise (ValidationException (Text "missing required field inputs"))
  /\ snd (load_document_by_string Demo.checked_load Demo.valid_yaml_load
            Demo.graph_text "file:///cwd/" VNone None true ∅)
     = Raise (ValidationException (Text "missing required field inputs")).
Proof. split; vm_compute; reflexivity. Qed.

(** C4: the code at a graph of two complete tools given as text,
    [load_all] true.  [load_document] returns the one tool of the main
    element, as [load_document_by_string] does with [load_all] false.
    [load_document_by_string] with [load_all] true returns a list of the
    two tools of the graph, and so does [load_document] itself when it is
    given the YAML object the text is read as. *)
Theorem load_document_text_ignores_load_all :
  let called :=
    load_document Demo.checked_load Demo.valid_yaml_load "file:///cwd"
      (VStr Demo.valid_graph_text) (Some "file:///cwd/") VNone None true ∅ in
  let direct :=
    load_document_by_string Demo.checked_load Demo.valid_yaml_load
      Demo.valid_graph_text "file:///cwd/" VNone None true ∅ in
  let read := Demo.valid_yaml_load Demo.valid_graph_text ∅ in
  called
  = load_document_by_string Demo.checked_load Demo.valid_yaml_load
      Demo.valid_graph_text "file:///cwd/" VNone None false ∅
  /\ snd called = Ok (VRef 9%positive)
  /\ (exists f,
        fst called !! 9%positive
        = Some (OInst "CommandLineTool" Demo.CommandLineTool_attrs f)
        /\ dict_get "id" f = Some (VStr "#main"))
  /\ snd direct = Ok (VRef 12%positive)
  /\ fst direct !! 12%positive
     = Some (OList [VRef 9%positive; VRef 10%positive])
  /\ (exists f g,
        fst direct !! 9%positive
        = Some (OInst "CommandLineTool" Demo.CommandLineTool_attrs f)
        /\ fst direct !! 10%positive
           = Some (OInst "CommandLineTool" Demo.CommandLineTool_attrs g)
        /\ dict_get "id" f = Some (VStr "#main")
        /\ dict_get "id" g = Some (VStr "other"))
  /\ snd read = Ok (VRef 8%positive)
  /\ load_document Demo.checked_load Demo.valid_yaml_load "file:///cwd"
       (VRef 8%positive) (Some "file:///cwd/") VNone None true (fst read)
     = direct
  /\ called <> direct.
Proof.
  repeat split; try (vm_compute; reflexivity).
  - vm_compute. eexists. split; reflexivity.
  - vm_compute. do 2 eexists. repeat split; reflexivity.
  - vm_compute. discriminate.
Qed.

End ParserFacts.

(** ** The serializer: facts *)
Module SerializerFacts.
Import Py Data Parser Serializer.

Lemma list_gt_trans (a b c : list Z) :
  list_gt a b = true -> list_gt b c = true -> list_gt a c = true.
Proof.
  revert b c. induction a as [|x a IH]; intros [|y b] [|z c]; simpl;
    try discriminate; auto.
  destruct (Z.eqb_spec x y), (Z.eqb_spec y z), (Z.eqb_spec x z);
    try lia; eauto;
    repeat match goal with |- context [Z.ltb ?u ?v] =>
             destruct (Z.ltb_spec u v) end;
    try discriminate; try lia; auto.
Qed.

(** An element that no key exceeds stays so when the bound moves up or
    stays. *)
Lemma list_gt_cotrans (a b c : list Z) :
  list_gt a c = true -> list_gt a b = true \/ list_gt b c = true.
Proof.
  revert b c. induction a as [|x a IH]; intros [|y b] [|z c]; simpl;
    try discriminate; auto.
  destruct (Z.eqb_spec x y), (Z.eqb_spec y z), (Z.eqb_spec x z);
    try lia; eauto;
    repeat match goal with |- context [Z.ltb ?u ?v] =>
             destruct (Z.ltb_spec u v) end;
    try discriminate; try lia; auto.
Qed.

Lemma list_gt_irrefl (a : list Z) : list_gt a a = false.
Proof.
  induction a as [|x a IH]; simpl; [reflexivity|].
  now rewrite Z.eqb_refl.
Qed.

Lemma each_Forall2 {A B : Type} (f : A -> result B) (xs : list A) (ys : list B) :
  Forall2 (fun x y => f x = Ok y) xs ys -> each f xs = Ok ys.
Proof.
  induction 1 as [|x y xs ys Hx _ IH]; simpl; [reflexivity|].
  now rewrite Hx, IH.
Qed.

Section SaveFacts.

Variable Saveable : Type.
Variable module_of : Saveable -> cwl_module.
Variable instance_of_Process : Saveable -> bool.
Variable Saveable_save :
  Saveable -> bool -> string -> bool -> result (data Saveable).

Abbreviation is_process' := (is_process Saveable module_of instance_of_Process).
Abbreviation version_split' := (version_split Saveable).
Abbreviation save' :=
  (save Saveable module_of instance_of_Process Saveable_save).

Lemma is_process_object (o : Saveable) :
  is_process' (DObj o) = instance_of_Process o.
Proof.
  unfold is_process, isinstance_Process.
  destruct (module_of o), (instance_of_Process o); reflexivity.
Qed.

Lemma save_object (o : Saveable) (top : bool) (base_url : string)
    (relative_uris : bool) :
  save' (DObj o) top base_url relative_uris
  = Saveable_save o top base_url relative_uris.
Proof. simpl. destruct (module_of o); reflexivity. Qed.

Lemma max_from_spec (key : data Saveable -> result (list Z))
    (items : list (data Saveable)) (keys : list (list Z)) :
  Forall2 (fun v k => key v = Ok k) items keys ->
  forall m km,
    key m = Ok km ->
    exists latest kl,
      max_from Saveable key m km items = Ok latest
      /\ (latest = m \/ In latest items)
      /\ key latest = Ok kl
      /\ list_gt km kl = false
      /\ Forall (fun k => list_gt k kl = false) keys.
Proof.
  induction 1 as [|item k items keys Hk _ IH]; intros m km Hm; simpl.
  - exists m, km. repeat split; auto using list_gt_irrefl.
  - rewrite Hk. simpl. destruct (list_gt k km) eqn:Hgt.
    + destruct (IH item k Hk) as (latest & kl & Hmax & Hin & Hkl & Hle & Hall).
      exists latest, kl. repeat split; auto.
      * destruct Hin as [->|Hin]; auto.
      * destruct (list_gt km kl) eqn:E; [|reflexivity].
        rewrite (list_gt_trans _ _ _ Hgt E) in Hle. discriminate.
    + destruct (IH m km Hm) as (latest & kl & Hmax & Hin & Hkl & Hle & Hall).
      exists latest, kl. repeat split; auto.
      * destruct Hin as [->|Hin]; auto.
      * constructor; [|exact Hall].
        destruct (list_gt k kl) eqn:E; [|reflexivity].
        destruct (list_gt_cotrans _ km _ E) as [E'|E']; congruence.
Qed.

Lemma py_max_spec (key : data Saveable -> result (list Z))
    (items : list (data Saveable)) (keys : list (list Z)) :
  Forall2 (fun v k => key v = Ok k) items keys ->
  items <> [] ->
  exists latest kl,
    py_max Saveable key items = Ok latest
    /\ In latest items
    /\ key latest = Ok kl
    /\ Forall (fun k => list_gt k kl = false) keys.
Proof.
  intros [|item k items' keys' Hk Hrest] Hne; [contradiction|]. simpl.
  rewrite Hk. simpl.
  destruct (max_from_spec key items' keys' Hrest item k Hk)
    as (latest & kl & Hmax & Hin & Hkl & Hle & Hall).
  exists latest, kl. repeat split; auto.
  destruct Hin as [->|Hin]; auto.
Qed.

Lemma versions_of_processes (xs lst vers : list (data Saveable)) :
  Forall2 (fun v e : data Saveable => is_process' v = true) xs lst ->
  Forall2 (fun e x => get_cwlVersion Saveable e = Ok x) lst vers ->
  versions_of Saveable module_of instance_of_Process lst xs = Ok vers.
Proof.
  intros H. revert vers.
  induction H as [|v e xs lst Hv _ IH]; intros vers Hvers;
    inversion Hvers; subst; simpl; [reflexivity|].
  rewrite Hv. match goal with H : get_cwlVersion _ _ = _ |- _ => rewrite H end.
  simpl. now rewrite (IH _ ltac:(eassumption)).
Qed.

(** C5 (amended).  For a sequence of Process objects whose serializations
    [lst] are mappings, at least one of them with a cwlVersion that is not
    None, and every such cwlVersion a string that [version_split] splits
    into integers: [save] with [top] true returns
    [{"cwlVersion": latest, "$graph": lst}], where [latest] is one of these
    cwlVersion values and no other has a greater [version_split]. *)
Theorem save_process_sequence
    (xs lst vers : list (data Saveable)) (keys : list (list Z))
    (base_url : string) (relative_uris : bool) :
  Forall2 (fun v e =>
             exists o, v = DObj o
                       /\ instance_of_Process o = true
                       /\ Saveable_save o true base_url relative_uris = Ok e)
    xs lst ->
  Forall2 (fun e x =>
             exists kvs, e = DDict kvs
                         /\ x = default DNone (entry "cwlVersion" kvs))
    lst vers ->
  Forall2 (fun v k => version_split Saveable v = Ok k)
    (List.filter (fun v => negb (is_None v)) vers) keys ->
  keys <> [] ->
  exists latest kl,
    save Saveable module_of instance_of_Process Saveable_save
      (DList xs) true base_url relative_uris
    = Ok (DDict [("cwlVersion", latest); ("$graph", DList lst)])
    /\ In latest vers
    /\ latest <> DNone
    /\ version_split Saveable latest = Ok kl
    /\ Forall (fun k => list_gt k kl = false) keys.
Proof.
  intros Hsave Hvers Hkeys Hne.
  assert (Hitems : List.filter (fun v => negb (is_None v)) vers <> []).
  { intros E. rewrite E in Hkeys. inversion Hkeys; subst. contradiction. }
  destruct (py_max_spec version_split' _ _ Hkeys Hitems)
    as (latest & kl & Hmax & Hin & Hkl & Hall).
  exists latest, kl.
  apply filter_In in Hin as [Hin Hnone].
  repeat split; auto.
  - simpl.
    rewrite (each_Forall2 _ xs lst).
    2:{ eapply Forall2_impl; [exact Hsave|].
        intros v e (o & -> & _ & Ho). now rewrite save_object. }
    simpl.
    assert (Hproc : Forall2 (fun v e : data Saveable => is_process' v = true) xs lst).
    { eapply Forall2_impl; [exact Hsave|].
      intros v e (o & -> & Hp & _). now rewrite is_process_object. }
    assert (Hall_proc : forallb is_process' xs = true).
    { clear -Hproc. induction Hproc as [|v e xs lst Hv _ IH]; simpl; [reflexivity|].
      now rewrite Hv, IH. }
    rewrite Hall_proc.
    rewrite (versions_of_processes xs lst vers Hproc).
    2:{ eapply Forall2_impl; [exact Hvers|].
        intros e x (kvs & -> & ->). reflexivity. }
    simpl. now rewrite Hmax.
  - intros ->. discriminate.
Qed.

End SaveFacts.

Lemma save_process_sequence_witness :
  exists latest kl,
    Serializer.save Demo.demo_object Demo.its_module Demo.demo_is_Process
      Demo.demo_save
      (DList [DObj Demo.tool_v1_0; DObj Demo.tool_v1_2; DObj Demo.tool_v1_1])
      true "" true
    = Ok (DDict
            [("cwlVersion", latest);
             ("$graph",
              DList
                [DDict [("id", DStr "a"); ("class", DStr "CommandLineTool");
                        ("cwlVersion", DStr "v1.0")];
                 DDict [("id", DStr "b"); ("class", DStr "CommandLineTool");
                        ("cwlVersion", DStr "v1.2")];
                 DDict [("id", DStr "c"); ("class", DStr "CommandLineTool");
                        ("cwlVersion", DStr "v1.1")]])])
    /\ In latest [DStr "v1.0"; DStr "v1.2"; DStr "v1.1"]
    /\ latest <> DNone
    /\ Serializer.version_split Demo.demo_object latest = Ok kl
    /\ Forall (fun k => list_gt k kl = false) [[1; 0]; [1; 2]; [1; 1]]%Z.
Proof.
  refine (save_process_sequence Demo.demo_object Demo.its_module
            Demo.demo_is_Process Demo.demo_save
            [DObj Demo.tool_v1_0; DObj Demo.tool_v1_2; DObj Demo.tool_v1_1]
            _ [DStr "v1.0"; DStr "v1.2"; DStr "v1.1"]
            [[1; 0]; [1; 2]; [1; 1]]%Z "" true _ _ _ _).
  - repeat constructor; eexists; repeat split; reflexivity.
  - repeat constructor; eexists; split; reflexivity.
  - repeat constructor.
  - discriminate.
Defined.

(** C5, as stated, fails on a one-element sequence whose Process has no
    cwlVersion: its serialization has no ["cwlVersion"] entry, [max] is
    given nothing, and [save] raises ValueError. *)
Lemma save_process_without_version :
  Serializer.is_process Demo.demo_object Demo.its_module Demo.demo_is_Process
    (DObj Demo.embedded_tool) = true
  /\ Demo.demo_save Demo.embedded_tool true "" true
     = Ok (DDict [("id", DStr "step/run"); ("class", DStr "CommandLineTool")])
  /\ Serializer.save Demo.demo_object Demo.its_module Demo.demo_is_Process
       Demo.demo_save (DList [DObj Demo.embedded_tool]) true "" true
     = Raise ValueError.
Proof. repeat split. Qed.

End SerializerFacts.

(** ** The walker: facts *)
Module CiteExtractFacts.
Import Py Data CiteExtract.

Section WalkFacts.

Variable LoadingOptions : Type.
Variable load_field_SoftwareRequirement :
  hint -> string -> LoadingOptions -> result SoftwareRequirement.
Variable load_document : string -> result (process LoadingOptions).

Abbreviation fields' := (fields LoadingOptions).
Abbreviation process' := (process LoadingOptions).
Abbreviation step' := (WorkflowStep LoadingOptions).
Abbreviation extract_software_reqs' :=
  (extract_software_reqs LoadingOptions load_field_SoftwareRequirement).
Abbreviation extract_software_packages' :=
  (extract_software_packages LoadingOptions load_field_SoftwareRequirement).
Abbreviation get_process_from_step' :=
  (get_process_from_step LoadingOptions load_document).
Abbreviation traverse' :=
  (traverse LoadingOptions load_field_SoftwareRequirement load_document).
Abbreviation traverse_steps' :=
  (traverse_steps LoadingOptions load_field_SoftwareRequirement load_document).
Abbreviation sub_process' := (sub_process LoadingOptions load_document).
Abbreviation subprocess' := (subprocess LoadingOptions load_document).
Abbreviation hints_loaded' :=
  (hints_loaded LoadingOptions load_field_SoftwareRequirement).
Abbreviation software_reqs' :=
  (software_reqs LoadingOptions load_field_SoftwareRequirement).
Abbreviation Walk' :=
  (Walk LoadingOptions load_field_SoftwareRequirement load_document).
Abbreviation WalkSteps' :=
  (WalkSteps LoadingOptions load_field_SoftwareRequirement load_document).

Lemma from_requirements_spec (reqs : list requirement) :
  from_requirements reqs = software_requirements_in reqs.
Proof.
  induction reqs as [|[r|c] reqs IH]; simpl; [reflexivity| |exact IH].
  now rewrite IH.
Qed.

Lemma eq_str_false (c : hint) (s : string) :
  c <> DStr s -> eq_str c s = false.
Proof.
  destruct c; simpl; try reflexivity.
  intros Hne. destruct (String.eqb_spec s0 s); congruence.
Qed.

Lemma from_hints_loaded (f : fields') (hs : list hint)
    (ys : list SoftwareRequirement) :
  hints_loaded' f hs ys ->
  from_hints LoadingOptions load_field_SoftwareRequirement f hs = (ys, Ok tt).
Proof.
  induction 1 as [|kvs c rest ys Hc Hne _ IH|kvs rest r ys Hc Hload _ IH]; simpl.
  - reflexivity.
  - rewrite Hc. now rewrite (eq_str_false _ _ Hne).
  - rewrite Hc. simpl.
    replace (match id LoadingOptions f with
             | Some i => if String.eqb i "" then "" else i
             | None => ""
             end) with (default "" (id LoadingOptions f)).
    + now rewrite Hload, IH.
    + destruct (id LoadingOptions f) as [i|]; simpl; [|reflexivity].
      destruct (String.eqb_spec i ""); congruence.
Qed.

Lemma extract_software_reqs_loaded (f : fields')
    (ys : list SoftwareRequirement) :
  hints_loaded' f (default [] (hints LoadingOptions f)) ys ->
  extract_software_reqs' f
  = ((software_requirements_in (default [] (requirements LoadingOptions f))
        ++ ys)%list, Ok tt).
Proof.
  intros Hh. unfold extract_software_reqs.
  assert (Hfirst :
            match requirements LoadingOptions f with
            | Some (r :: rs) => from_requirements (r :: rs)
            | _ => []
            end
            = software_requirements_in
                (default [] (requirements LoadingOptions f))).
  { destruct (requirements LoadingOptions f) as [[|r rs]|];
      [reflexivity | apply from_requirements_spec | reflexivity]. }
  rewrite Hfirst.
  destruct (hints LoadingOptions f) as [[|x xs]|].
  - inversion Hh; subst. now rewrite app_nil_r.
  - change (hints_loaded' f (x :: xs) ys) in Hh.
    now rewrite (from_hints_loaded f _ _ Hh).
  - inversion Hh; subst. now rewrite app_nil_r.
Qed.

Lemma package_lines_flat_map (f : fields') (reqs : list SoftwareRequirement) :
  flat_map (fun req => PrintId (id LoadingOptions f)
                         :: process_software_requirement req) reqs
  = package_lines LoadingOptions f reqs.
Proof.
  unfold package_lines. induction reqs as [|r reqs IH]; simpl; [reflexivity|].
  rewrite IH. reflexivity.
Qed.

Lemma extract_software_packages_reqs (f : fields')
    (reqs : list SoftwareRequirement) :
  software_reqs' f reqs ->
  extract_software_packages' f = (package_lines LoadingOptions f reqs, Ok tt).
Proof.
  intros (ys & Hh & ->). unfold extract_software_packages.
  rewrite (extract_software_reqs_loaded f ys Hh).
  now rewrite package_lines_flat_map.
Qed.

Lemma get_process_from_step_sub (step : step') (q : process') :
  get_process_from_step' step = Ok q <-> sub_process' step q.
Proof.
  unfold get_process_from_step, sub_process.
  destruct (step_run LoadingOptions step); [reflexivity|].
  split; [intros [= ->] | intros ->]; reflexivity.
Qed.

Lemma and_then_Ok (o : list line) (k : unit -> option (printed unit)) :
  and_then (Some (o, Ok tt)) k
  = match k tt with
    | None => None
    | Some (o', r) => Some ((o ++ o')%list, r)
    end.
Proof. reflexivity. Qed.

(** *** Fuel: more of it gives the same outcome *)

Lemma traverse_steps_ext (t t' : process' -> option (printed unit))
    (steps : list step') (r : printed unit) :
  (forall q x, t q = Some x -> t' q = Some x) ->
  traverse_steps' t steps = Some r -> traverse_steps' t' steps = Some r.
Proof.
  intros Ht. revert r. induction steps as [|step steps IH]; intros r; simpl;
    [auto|].
  destruct (extract_software_packages' (step_fields LoadingOptions step))
    as [o [[]|e]]; simpl; [|auto].
  destruct (get_process_from_step' step) as [q|e]; [|auto].
  destruct (t q) as [[oq [[]|e]]|] eqn:Hq; simpl; [| |discriminate].
  - rewrite (Ht _ _ Hq). simpl.
    destruct (traverse_steps' t steps) as [[os rs]|] eqn:Hs; [|discriminate].
    now rewrite (IH _ eq_refl).
  - now rewrite (Ht _ _ Hq).
Qed.

Lemma traverse_unfold (n : nat) (p : process') :
  traverse' (S n) p
  = and_then (Some (extract_software_packages' (fields_of LoadingOptions p)))
      (fun _ => match p with
                | Workflow _ steps => traverse_steps' (traverse' n) steps
                | _ => Some ([], Ok tt)
                end).
Proof. reflexivity. Qed.

Lemma traverse_steps_cons (t : process' -> option (printed unit))
    (step : step') (rest : list step') :
  traverse_steps' t (step :: rest)
  = and_then
      (Some (extract_software_packages' (step_fields LoadingOptions step)))
      (fun _ =>
         match get_process_from_step' step with
         | Raise e => Some ([], Raise e)
         | Ok p => and_then (t p) (fun _ => traverse_steps' t rest)
         end).
Proof. reflexivity. Qed.

Lemma traverse_S (n : nat) (p : process') (r : printed unit) :
  traverse' n p = Some r -> traverse' (S n) p = Some r.
Proof.
  revert p r. induction n as [|n IH]; intros p r; [discriminate|].
  rewrite !traverse_unfold.
  destruct (extract_software_packages' (fields_of LoadingOptions p))
    as [o [[]|e]]; [|auto].
  rewrite !and_then_Ok.
  destruct p as [f|f|f steps]; auto.
  destruct (traverse_steps' (traverse' n) steps) as [[os rs]|] eqn:Hs;
    [|discriminate].
  now rewrite (traverse_steps_ext _ (traverse' (S n)) _ _ IH Hs).
Qed.

Lemma traverse_le (n n' : nat) (p : process') (r : printed unit) :
  n <= n' -> traverse' n p = Some r -> traverse' n' p = Some r.
Proof.
  induction 1 as [|n' _ IH]; [auto|]. intros H. apply traverse_S. auto.
Qed.

(** *** Termination *)

Lemma traverse_steps_returns (steps : list step') :
  (forall step q, In step steps -> sub_process' step q ->
                  exists n r, traverse' n q = Some r) ->
  exists n r, traverse_steps' (traverse' n) steps = Some r.
Proof.
  induction steps as [|step steps IH]; intros Hsub.
  - exists 0, ([], Ok tt). reflexivity.
  - destruct IH as (n1 & r1 & H1).
    { intros s q Hin. apply Hsub. now right. }
    simpl.
    destruct (extract_software_packages' (step_fields LoadingOptions step))
      as [o [[]|e]]; simpl; [|eauto].
    destruct (get_process_from_step' step) as [q|e] eqn:Hq.
    2:{ exists 0. eauto. }
    destruct (Hsub step q (or_introl eq_refl)) as (n2 & r2 & H2).
    { now apply get_process_from_step_sub. }
    exists (Nat.max n1 n2).
    rewrite (traverse_le n2 _ q r2 (Nat.le_max_r _ _) H2).
    destruct r2 as [oq [[]|e]]; simpl; [|eauto].
    rewrite (traverse_steps_ext (traverse' n1) (traverse' (Nat.max n1 n2))
               steps r1 (fun q x => traverse_le n1 _ q x (Nat.le_max_l _ _)) H1).
    destruct r1 as [os rs]. eauto.
Qed.

Lemma traverse_returns_Acc (p : process') :
  Acc (fun q p => subprocess' p q) p -> exists n r, traverse' n p = Some r.
Proof.
  induction 1 as [p _ IH].
  destruct (traverse_steps_returns (steps_of LoadingOptions p))
    as (n & r & Hn).
  { intros step q Hin Hq. apply IH. exists step. auto. }
  exists (S n). rewrite traverse_unfold.
  destruct (extract_software_packages' (fields_of LoadingOptions p))
    as [o [[]|e]]; [|simpl; eauto].
  rewrite and_then_Ok.
  destruct p as [f|f|f steps]; simpl in *; eauto.
  rewrite Hn. destruct r. eauto.
Qed.

(** In a finite set without cycles every descent ends. *)
Lemma finite_acyclic_Acc (p : process') (universe : list process') :
  (forall q, rtc subprocess' p q -> In q universe) ->
  (forall q, rtc subprocess' p q -> ~ tc subprocess' q q) ->
  Acc (fun q p => subprocess' p q) p.
Proof.
  intros Hfin Hacyc.
  assert (Hgen : forall m q path,
             rtc subprocess' p q ->
             List.NoDup path ->
             (forall x, In x path -> rtc subprocess' p x /\ tc subprocess' x q) ->
             length universe - length path <= m ->
             Acc (fun q p => subprocess' p q) q).
  { induction m as [|m IH]; intros q path Hq Hnd Hanc Hm.
    - exfalso.
      assert (Hnotin : ~ In q path).
      { intros Hin. apply (Hacyc q Hq). now apply Hanc. }
      assert (Hlen : length (q :: path) <= length universe).
      { apply List.NoDup_incl_length; [now constructor|].
        intros x [<-|Hx]; [auto | apply Hfin, Hanc, Hx]. }
      simpl in Hlen. lia.
    - assert (Hnotin : ~ In q path).
      { intros Hin. apply (Hacyc q Hq). now apply Hanc. }
      assert (Hlen : length (q :: path) <= length universe).
      { apply List.NoDup_incl_length; [now constructor|].
        intros x [<-|Hx]; [auto | apply Hfin, Hanc, Hx]. }
      simpl in Hlen.
      constructor. intros c Hc. apply (IH c (q :: path)).
      + eapply rtc_r; eauto.
      + now constructor.
      + intros x [<-|Hx].
        * split; [exact Hq | now apply tc_once].
        * destruct (Hanc x Hx) as [Hpx Hxq]. split; [exact Hpx|].
          eapply tc_r; eauto.
      + simpl. lia. }
  apply (Hgen (length universe) p []);
    [apply rtc_refl | constructor | intros x [] | simpl; lia].
Qed.

(** C7 (amended).  When every hints entry is a mapping with a ["class"]
    and [load_field] loads each entry whose class is
    "SoftwareRequirement", [extract_software_reqs] yields the requirements
    entries that are SoftwareRequirement instances, followed by one loaded
    SoftwareRequirement for each such hints entry, and ends without an
    exception. *)
Theorem extract_software_reqs_yields (f : fields LoadingOptions)
    (ys : list SoftwareRequirement) :
  hints_loaded LoadingOptions load_field_SoftwareRequirement f
    (default [] (hints LoadingOptions f)) ys ->
  extract_software_reqs LoadingOptions load_field_SoftwareRequirement f
  = ((software_requirements_in (default [] (requirements LoadingOptions f))
        ++ ys)%list, Ok tt).
Proof. apply extract_software_reqs_loaded. Qed.

(** C6 (amended).  When the walk of the specification exists for a
    process (every sub-process named by a URI loads, the tree is finite,
    and the hints of every process and step visited load), [traverse]
    returns with enough fuel and prints exactly the lines of that walk:
    the package metadata of the process and, for a workflow, for each step
    in order the step's package metadata followed by what [traverse]
    prints on the step's sub-process. *)
Theorem traverse_prints_walk (p : process LoadingOptions) (out : list line) :
  Walk LoadingOptions load_field_SoftwareRequirement load_document p out ->
  exists fuel, forall n,
      fuel <= n ->
      traverse LoadingOptions load_field_SoftwareRequirement load_document n p
      = Some (out, Ok tt).
Proof.
  revert p out.
  apply (Walk_mutind LoadingOptions load_field_SoftwareRequirement load_document
           (fun p out =>
              exists fuel, forall n, fuel <= n ->
                                     traverse' n p = Some (out, Ok tt))
           (fun steps out =>
              exists fuel, forall n, fuel <= n ->
                traverse_steps' (traverse' n) steps = Some (out, Ok tt))).
  - intros p reqs out Hreqs _ (fuel & Hfuel).
    exists (S fuel). intros [|n] Hn; [lia|]. rewrite traverse_unfold.
    rewrite (extract_software_packages_reqs _ _ Hreqs), and_then_Ok.
    specialize (Hfuel n ltac:(lia)). cbv beta.
    destruct p as [f|f|f steps]; simpl in Hfuel |- *.
    + injection Hfuel as <-. reflexivity.
    + injection Hfuel as <-. reflexivity.
    + now rewrite Hfuel.
  - exists 0. reflexivity.
  - intros step rest reqs q out_q out_rest Hreqs Hsub _ (f1 & H1) _ (f2 & H2).
    exists (Nat.max f1 f2). intros n Hn. rewrite traverse_steps_cons.
    rewrite (extract_software_packages_reqs _ _ Hreqs), and_then_Ok.
    apply get_process_from_step_sub in Hsub. cbv beta. rewrite Hsub.
    rewrite (H1 n ltac:(lia)), and_then_Ok. cbv beta.
    rewrite (H2 n ltac:(lia)). reflexivity.
Qed.

(** C8.  On a finite process tree without cycles (the processes reached
    from [p] through the sub-processes of steps all lie in a finite list,
    and none of them reaches itself), [traverse] terminates: from some
    fuel on it gives one and the same outcome. *)
Theorem traverse_terminates (p : process LoadingOptions)
    (universe : list (process LoadingOptions)) :
  (forall q, rtc (subprocess LoadingOptions load_document) p q ->
             In q universe) ->
  (forall q, rtc (subprocess LoadingOptions load_document) p q ->
             ~ tc (subprocess LoadingOptions load_document) q q) ->
  exists fuel r, forall n,
      fuel <= n ->
      traverse LoadingOptions load_field_SoftwareRequirement load_document n p
      = Some r.
Proof.
  intros Hfin Hacyc.
  destruct (traverse_returns_Acc p (finite_acyclic_Acc p universe Hfin Hacyc))
    as (fuel & r & Hr).
  exists fuel, r. intros n Hn. exact (traverse_le fuel n p r Hn Hr).
Qed.

End WalkFacts.

(** *** The demonstration processes *)

Lemma samtools_hint_loaded (f : fields unit) :
  hints_loaded unit Demo.demo_load_field f [Demo.samtools_hint]
    [Demo.samtools_requirement].
Proof.
  apply hints_software; [reflexivity | reflexivity | constructor].
Qed.

Lemma bare_software_reqs (i : string) :
  software_reqs unit Demo.demo_load_field (Demo.bare i) [].
Proof. exists []. split; [constructor | reflexivity]. Qed.

Lemma align_software_reqs :
  software_reqs unit Demo.demo_load_field Demo.align_fields
    [{| packages := [Demo.bwa] |}; Demo.samtools_requirement].
Proof.
  exists [Demo.samtools_requirement]. split; [|reflexivity].
  eapply hints_other; [reflexivity | discriminate | apply samtools_hint_loaded].
Qed.

Lemma Walk_align_tool :
  Walk unit Demo.demo_load_field Demo.demo_load_document Demo.align_tool
    (package_lines unit Demo.align_fields
       [{| packages := [Demo.bwa] |}; Demo.samtools_requirement] ++ [])%list.
Proof. constructor; [apply align_software_reqs | constructor]. Qed.

Lemma Walk_sort_tool :
  Walk unit Demo.demo_load_field Demo.demo_load_document Demo.sort_tool
    (package_lines unit (fields_of unit Demo.sort_tool)
       [Demo.samtools_requirement] ++ [])%list.
Proof.
  constructor; [|constructor].
  exists [Demo.samtools_requirement]. split; [apply samtools_hint_loaded | reflexivity].
Qed.

Lemma Walk_pipeline :
  Walk unit Demo.demo_load_field Demo.demo_load_document Demo.pipeline
    Demo.pipeline_lines.
Proof.
  change Demo.pipeline_lines with
    (package_lines unit (Demo.bare "pipeline.cwl") []
     ++ (package_lines unit (Demo.bare "pipeline.cwl#align") []
         ++ (package_lines unit Demo.align_fields
               [{| packages := [Demo.bwa] |}; Demo.samtools_requirement] ++ [])
         ++ (package_lines unit (Demo.bare "pipeline.cwl#sort") []
             ++ (package_lines unit (fields_of unit Demo.sort_tool)
                   [Demo.samtools_requirement] ++ [])
             ++ [])))%list.
  constructor; [apply bare_software_reqs|].
  econstructor; [apply bare_software_reqs | reflexivity | apply Walk_align_tool |].
  econstructor; [apply bare_software_reqs | reflexivity | apply Walk_sort_tool |].
  constructor.
Qed.

Lemma traverse_prints_walk_witness :
  exists fuel, forall n,
      fuel <= n ->
      traverse unit Demo.demo_load_field Demo.demo_load_document n Demo.pipeline
      = Some (Demo.pipeline_lines, Ok tt).
Proof.
  exact (traverse_prints_walk unit Demo.demo_load_field Demo.demo_load_document
           Demo.pipeline Demo.pipeline_lines Walk_pipeline).
Defined.

(** C6, as stated, fails on a workflow whose first step names a file that
    cannot be loaded: [traverse] ends with the loader's exception, whatever
    the fuel, and the second step, which has software requirements, is
    never visited. *)
Lemma traverse_stops_at_failed_load :
  traverse unit Demo.demo_load_field Demo.demo_load_document 3
    Demo.broken_pipeline
  = Some ([], Raise (OtherError "FileNotFoundError"))
  /\ (forall n r,
        traverse unit Demo.demo_load_field Demo.demo_load_document n
          Demo.broken_pipeline = Some r ->
        r = ([], Raise (OtherError "FileNotFoundError")))
  /\ extract_software_packages unit Demo.demo_load_field Demo.align_fields
     = ([PrintId (Some "align.cwl");
         PrintPackage "bwa" (Some ["0.7.17"])
           (Some ["https://identifiers.org/rrid/RRID:SCR_010910"]);
         PrintId (Some "align.cwl"); PrintPackage "samtools" None None],
        Ok tt).
Proof.
  split; [reflexivity|]. split; [|reflexivity].
  intros [|n] r; [discriminate|]. intros [= <-]. reflexivity.
Qed.

Lemma extract_software_reqs_yields_witness :
  extract_software_reqs unit Demo.demo_load_field Demo.align_fields
  = ([{| packages := [Demo.bwa] |}; Demo.samtools_requirement], Ok tt).
Proof.
  refine (extract_software_reqs_yields unit Demo.demo_load_field
            Demo.align_fields [Demo.samtools_requirement] _).
  eapply hints_other; [reflexivity | discriminate | apply samtools_hint_loaded].
Defined.

(** C7, as stated, fails on hints whose first entry has no ["class"]: the
    generator yields the requirement and then raises KeyError, and the
    second entry, whose class is "SoftwareRequirement" and which loads, is
    never yielded. *)
Lemma extract_software_reqs_key_error :
  extract_software_reqs unit Demo.demo_load_field Demo.classless_fields
  = ([{| packages := [Demo.bwa] |}], Raise (KeyError "class"))
  /\ hints unit Demo.classless_fields
     = Some [Demo.classless_hint; Demo.samtools_hint]
  /\ hint_class Demo.samtools_hint = Ok (DStr "SoftwareRequirement")
  /\ Demo.demo_load_field Demo.samtools_hint "tool.cwl" tt
     = Ok Demo.samtools_requirement.
Proof. repeat split. Qed.

Lemma tool_is_leaf (f : fields unit) (q : process unit) :
  ~ subprocess unit Demo.demo_load_document (CommandLineTool f) q.
Proof. intros (step & [] & _). Qed.

Lemma pipeline_children (q : process unit) :
  subprocess unit Demo.demo_load_document Demo.pipeline q ->
  q = Demo.align_tool \/ q = Demo.sort_tool.
Proof.
  intros (step & Hin & Hsub). simpl in Hin.
  destruct Hin as [<- | [<- | []]]; unfold sub_process in Hsub; simpl in Hsub.
  - now left.
  - right. injection Hsub as <-. reflexivity.
Qed.

Lemma pipeline_reaches (q : process unit) :
  rtc (subprocess unit Demo.demo_load_document) Demo.pipeline q ->
  In q [Demo.pipeline; Demo.align_tool; Demo.sort_tool].
Proof.
  intros H. apply rtc_inv in H as [<-|(c & Hc & Hcq)]; [now left|].
  apply pipeline_children in Hc as [-> | ->];
    apply rtc_inv in Hcq as [<-|(c2 & Hc2 & Hrest)];
    simpl; auto; exfalso; eapply tool_is_leaf; exact Hc2.
Qed.

Lemma pipeline_acyclic (q : process unit) :
  rtc (subprocess unit Demo.demo_load_document) Demo.pipeline q ->
  ~ tc (subprocess unit Demo.demo_load_document) q q.
Proof.
  intros Hq Hcyc. apply pipeline_reaches in Hq. simpl in Hq.
  destruct Hq as [E|[E|[E|E]]]; try contradiction; subst q.
  - inversion Hcyc as [? ? Hc|? c ? Hc Hrest]; subst.
    + apply pipeline_children in Hc as [E|E]; discriminate.
    + apply pipeline_children in Hc as [-> | ->];
        inversion Hrest; subst; eapply tool_is_leaf; eauto.
  - inversion Hcyc; subst; eapply tool_is_leaf; eauto.
  - inversion Hcyc; subst; eapply tool_is_leaf; eauto.
Qed.

Lemma traverse_terminates_witness :
  exists fuel r, forall n,
      fuel <= n ->
      traverse unit Demo.demo_load_field Demo.demo_load_document n Demo.pipeline
      = Some r.
Proof.
  exact (traverse_terminates unit Demo.demo_load_field Demo.demo_load_document
           Demo.pipeline [Demo.pipeline; Demo.align_tool; Demo.sort_tool]
           pipeline_reaches pipeline_acyclic).
Defined.

End CiteExtractFacts.

(** ** The walker: what else the code shows *)
Module CiteExtractMore.
Import Py Data CiteExtract CiteExtractFacts.

Section WalkMore.

Variable LoadingOptions : Type.
Variable load_field_SoftwareRequirement :
  hint -> string -> LoadingOptions -> result SoftwareRequirement.
Variable load_document : string -> result (process LoadingOptions).

Lemma eq_str_true (c : hint) (s : string) :
  eq_str c s = true -> c = DStr s.
Proof.
  destruct c; simpl; try discriminate.
  intros E. apply String.eqb_eq in E. now subst.
Qed.

Lemma eq_str_not (c : hint) (s : string) :
  eq_str c s = false -> c <> DStr s.
Proof.
  intros E ->. simpl in E. now rewrite String.eqb_refl in E.
Qed.

Lemma base_of_id (f : fields LoadingOptions) :
  match id LoadingOptions f with
  | Some i => if String.eqb i "" then "" else i
  | None => ""
  end = default "" (id LoadingOptions f).
Proof.
  destruct (id LoadingOptions f) as [i|]; simpl; [|reflexivity].
  destruct (String.eqb_spec i ""); congruence.
Qed.

Lemma from_hints_Ok (f : fields LoadingOptions) (hs : list hint)
    (ys : list SoftwareRequirement) :
  from_hints LoadingOptions load_field_SoftwareRequirement f hs = (ys, Ok tt) ->
  hints_loaded LoadingOptions load_field_SoftwareRequirement f hs ys.
Proof.
  revert ys. induction hs as [|req rest IH]; intros ys; simpl.
  - intros [= <-]. constructor.
  - destruct req as [| | | | |kvs|o]; simpl; try discriminate.
    destruct (entry "class" kvs) as [c|] eqn:Hc; [|discriminate].
    destruct (eq_str c "SoftwareRequirement") eqn:Hs.
    + rewrite base_of_id.
      destruct (load_field_SoftwareRequirement (DDict kvs) _ _) as [r|e] eqn:Hl;
        [|discriminate].
      destruct (from_hints _ _ f rest) as [ys' out] eqn:Hrest.
      intros [= <- ->]. apply eq_str_true in Hs. subst c.
      apply hints_software; auto.
    + intros H. eapply hints_other; eauto using eq_str_not.
Qed.

Lemma extract_software_reqs_Ok (f : fields LoadingOptions)
    (reqs : list SoftwareRequirement) :
  extract_software_reqs LoadingOptions load_field_SoftwareRequirement f
  = (reqs, Ok tt) ->
  software_reqs LoadingOptions load_field_SoftwareRequirement f reqs.
Proof.
  unfold extract_software_reqs, software_reqs.
  assert (Hfirst :
            match requirements LoadingOptions f with
            | Some (r :: rs) => from_requirements (r :: rs)
            | _ => []
            end
            = software_requirements_in
                (default [] (requirements LoadingOptions f))).
  { destruct (requirements LoadingOptions f) as [[|r rs]|];
      [reflexivity | apply from_requirements_spec | reflexivity]. }
  rewrite Hfirst.
  destruct (hints LoadingOptions f) as [[|x xs]|].
  - intros [= <-]. exists []. split; [constructor | now rewrite app_nil_r].
  - destruct (from_hints _ _ f (x :: xs)) as [ys out] eqn:Hh.
    intros [= <- ->]. exists ys. split; [|reflexivity].
    now apply from_hints_Ok.
  - intros [= <-]. exists []. split; [constructor | now rewrite app_nil_r].
Qed.

Lemma extract_software_packages_Ok (f : fields LoadingOptions)
    (out : list line) :
  extract_software_packages LoadingOptions load_field_SoftwareRequirement f
  = (out, Ok tt) ->
  exists reqs,
    software_reqs LoadingOptions load_field_SoftwareRequirement f reqs
    /\ out = package_lines LoadingOptions f reqs.
Proof.
  unfold extract_software_packages.
  destruct (extract_software_reqs _ _ f) as [reqs r] eqn:Hr.
  intros [= <- ->]. exists reqs. split.
  - now apply extract_software_reqs_Ok.
  - symmetry. apply package_lines_flat_map.
Qed.

Lemma and_then_returns (a : printed unit) (k : unit -> option (printed unit))
    (out : list line) (r : result unit) :
  and_then (Some a) k = Some (out, r) ->
  (exists e, a = (out, Raise e) /\ r = Raise e)
  \/ (exists o o', a = (o, Ok tt) /\ k tt = Some (o', r) /\ out = (o ++ o')%list).
Proof.
  destruct a as [o [[]|e]]; simpl.
  - destruct (k tt) as [[o' r']|]; [|discriminate].
    intros [= <- <-]. right. eauto.
  - intros [= <- <-]. left. eauto.
Qed.

Lemma traverse_steps_Walk (t : process LoadingOptions -> option (printed unit))
    (steps : list (WorkflowStep LoadingOptions)) (out : list line) :
  (forall p o, t p = Some (o, Ok tt) ->
               Walk LoadingOptions load_field_SoftwareRequirement load_document p o) ->
  traverse_steps LoadingOptions load_field_SoftwareRequirement load_document
    t steps = Some (out, Ok tt) ->
  WalkSteps LoadingOptions load_field_SoftwareRequirement load_document steps out.
Proof.
  intros Ht. revert out. induction steps as [|step rest IH]; intros out.
  - simpl. intros [= <-]. constructor.
  - rewrite traverse_steps_cons.
    intros [(e & _ & He)|(o & o' & Ho & Hk & ->)]%and_then_returns;
      [discriminate|].
    apply extract_software_packages_Ok in Ho as (reqs & Hreqs & ->).
    destruct (get_process_from_step _ _ step) as [q|e] eqn:Hq; [|discriminate].
    destruct (t q) as [a|] eqn:Htq; [|discriminate].
    apply and_then_returns in Hk as [(e & _ & He)|(oq & orest & -> & Hrest & ->)];
      [discriminate|].
    econstructor; eauto.
    now apply get_process_from_step_sub.
Qed.

(** When [traverse] returns without an exception, what it printed is the
    walk of the process: its own package lines, then for each step in order
    the step's lines and the walk of the step's sub-process. *)
Theorem traverse_returned_walk (fuel : nat) (p : process LoadingOptions)
    (out : list line) :
  traverse LoadingOptions load_field_SoftwareRequirement load_document fuel p
  = Some (out, Ok tt) ->
  Walk LoadingOptions load_field_SoftwareRequirement load_document p out.
Proof.
  revert p out. induction fuel as [|n IH]; intros p out; [discriminate|].
  rewrite traverse_unfold.
  intros [(e & _ & He)|(o & o' & Ho & Hk & ->)]%and_then_returns;
    [discriminate|].
  apply extract_software_packages_Ok in Ho as (reqs & Hreqs & ->).
  constructor; [exact Hreqs|].
  destruct p as [f|f|f steps]; simpl in *.
  - injection Hk as <-. constructor.
  - injection Hk as <-. constructor.
  - eapply traverse_steps_Walk; eauto.
Qed.

(** Whatever [traverse] goes on to do, it first prints the package lines
    of the process it was given. *)
Theorem traverse_prints_own_lines_first (fuel : nat)
    (p : process LoadingOptions) (out : list line) (r : result unit) :
  traverse LoadingOptions load_field_SoftwareRequirement load_document fuel p
  = Some (out, r) ->
  exists rest,
    out = (fst (extract_software_packages LoadingOptions
                  load_field_SoftwareRequirement (fields_of LoadingOptions p))
           ++ rest)%list.
Proof.
  destruct fuel as [|n]; [discriminate|]. rewrite traverse_unfold.
  intros [(e & -> & _)|(o & o' & -> & _ & ->)]%and_then_returns; simpl.
  - exists []. now rewrite app_nil_r.
  - eauto.
Qed.

(** [traverse] does not notice a cycle: on a workflow whose first step
    runs the workflow itself it never returns. *)
Theorem traverse_cycle_never_returns (f : fields LoadingOptions)
    (step : WorkflowStep LoadingOptions)
    (rest : list (WorkflowStep LoadingOptions)) (o o' : list line) :
  extract_software_packages LoadingOptions load_field_SoftwareRequirement f
  = (o, Ok tt) ->
  extract_software_packages LoadingOptions load_field_SoftwareRequirement
    (step_fields LoadingOptions step) = (o', Ok tt) ->
  sub_process LoadingOptions load_document step (Workflow f (step :: rest)) ->
  forall fuel,
    traverse LoadingOptions load_field_SoftwareRequirement load_document fuel
      (Workflow f (step :: rest)) = None.
Proof.
  intros Hf Hs Hsub%get_process_from_step_sub fuel.
  induction fuel as [|n IH]; [reflexivity|].
  rewrite traverse_unfold. simpl fields_of. rewrite Hf, and_then_Ok.
  rewrite traverse_steps_cons, Hs, and_then_Ok. cbv beta. rewrite Hsub, IH.
  reflexivity.
Qed.

(** The software requirements among [requirements] are always yielded,
    and yielded first, whatever the hints are. *)
Theorem extract_software_reqs_requirements_first (f : fields LoadingOptions) :
  exists ys,
    fst (extract_software_reqs LoadingOptions load_field_SoftwareRequirement f)
    = (software_requirements_in (default [] (requirements LoadingOptions f))
       ++ ys)%list.
Proof.
  unfold extract_software_reqs.
  assert (Hfirst :
            match requirements LoadingOptions f with
            | Some (r :: rs) => from_requirements (r :: rs)
            | _ => []
            end
            = software_requirements_in
                (default [] (requirements LoadingOptions f))).
  { destruct (requirements LoadingOptions f) as [[|r rs]|];
      [reflexivity | apply from_requirements_spec | reflexivity]. }
  rewrite Hfirst.
  destruct (hints LoadingOptions f) as [[|x xs]|].
  - exists []. simpl. now rewrite app_nil_r.
  - destruct (from_hints _ _ f (x :: xs)) as [ys out]. exists ys. reflexivity.
  - exists []. simpl. now rewrite app_nil_r.
Qed.

Lemma from_hints_Raise (f : fields LoadingOptions) (hs : list hint)
    (ys : list SoftwareRequirement) (e : exn) :
  from_hints LoadingOptions load_field_SoftwareRequirement f hs = (ys, Raise e) ->
  exists req,
    In req hs
    /\ ((exists kvs, req = DDict kvs /\ entry "class" kvs = None
                     /\ e = KeyError "class")
        \/ ((forall kvs, req <> DDict kvs) /\ e = TypeError)
        \/ (hint_class req = Ok (DStr "SoftwareRequirement")
            /\ load_field_SoftwareRequirement req
                 (default "" (id LoadingOptions f))
                 (loadingOptions LoadingOptions f) = Raise e)).
Proof.
  revert ys. induction hs as [|req rest IH]; intros ys; simpl; [discriminate|].
  destruct (hint_class req) as [c|e0] eqn:Hc.
  - destruct (eq_str c "SoftwareRequirement") eqn:Hs.
    + rewrite base_of_id.
      destruct (load_field_SoftwareRequirement req _ _) as [r|e1] eqn:Hl.
      * destruct (from_hints _ _ f rest) as [ys' out] eqn:Hrest.
        intros [= <- ->]. destruct (IH _ eq_refl) as (req' & Hin & H).
        exists req'. split; [now right | exact H].
      * intros [= <- <-]. exists req. split; [now left|].
        right. right. apply eq_str_true in Hs. subst c. auto.
    + intros H. destruct (IH _ H) as (req' & Hin & H').
      exists req'. split; [now right | exact H'].
  - intros [= <- <-]. exists req. split; [now left|].
    unfold hint_class in Hc.
    destruct req as [| | | | |kvs|o];
      try (injection Hc as <-; right; left; split; [intros kvs; discriminate | reflexivity]).
    destruct (entry "class" kvs) eqn:He; [discriminate|].
    injection Hc as <-. left. eauto.
Qed.

(** [extract_software_reqs] ends with an exception only at a hints entry:
    KeyError for a mapping without ["class"], TypeError for an entry that
    is not a mapping, or the exception of [load_field] on an entry of class
    "SoftwareRequirement". *)
Theorem extract_software_reqs_exceptions (f : fields LoadingOptions) (e : exn) :
  snd (extract_software_reqs LoadingOptions load_field_SoftwareRequirement f)
  = Raise e ->
  exists req,
    In req (default [] (hints LoadingOptions f))
    /\ ((exists kvs, req = DDict kvs /\ entry "class" kvs = None
                     /\ e = KeyError "class")
        \/ ((forall kvs, req <> DDict kvs) /\ e = TypeError)
        \/ (hint_class req = Ok (DStr "SoftwareRequirement")
            /\ load_field_SoftwareRequirement req
                 (default "" (id LoadingOptions f))
                 (loadingOptions LoadingOptions f) = Raise e)).
Proof.
  unfold extract_software_reqs.
  destruct (hints LoadingOptions f) as [[|x xs]|]; try discriminate.
  destruct (from_hints _ _ f (x :: xs)) as [ys out] eqn:Hh. cbn [snd].
  intros ->. exact (from_hints_Raise f (x :: xs) ys e Hh).
Qed.

(** [main] returns only the status 0, and then it has printed what
    [traverse] prints on the document named by the first argument; without
    that argument it raises IndexError, and an exception of the loader is
    its own, nothing printed. *)
Theorem main_outcomes (argv : list string) (fuel : nat) :
  (forall out v,
      main LoadingOptions load_field_SoftwareRequirement load_document argv fuel
      = Some (out, Ok v) ->
      v = 0%Z
      /\ exists prog uri rest top,
          argv = prog :: uri :: rest
          /\ load_document uri = Ok top
          /\ traverse LoadingOptions load_field_SoftwareRequirement
               load_document fuel top = Some (out, Ok tt))
  /\ (length argv < 2 ->
      main LoadingOptions load_field_SoftwareRequirement load_document argv fuel
      = Some ([], Raise (OtherError "IndexError")))
  /\ (forall prog uri rest e,
        argv = prog :: uri :: rest ->
        load_document uri = Raise e ->
        main LoadingOptions load_field_SoftwareRequirement load_document
          argv fuel = Some ([], Raise e)).
Proof.
  split; [|split].
  - intros out v. unfold main.
    destruct argv as [|prog [|uri rest]]; try discriminate.
    destruct (load_document uri) as [top|e] eqn:Hl; [|discriminate].
    destruct (traverse _ _ _ fuel top) as [[o [[]|e]]|] eqn:Ht; try discriminate.
    intros [= <- <-]. split; [reflexivity|]. exists prog, uri, rest, top. auto.
  - destruct argv as [|prog [|uri rest]]; simpl; try reflexivity. lia.
  - intros prog uri rest e -> Hl. simpl. now rewrite Hl.
Qed.

End WalkMore.

Lemma traverse_returned_walk_witness :
  Walk unit Demo.demo_load_field Demo.demo_load_document Demo.pipeline
    Demo.pipeline_lines.
Proof.
  exact (traverse_returned_walk unit Demo.demo_load_field
           Demo.demo_load_document 2 Demo.pipeline Demo.pipeline_lines eq_refl).
Defined.

Lemma traverse_prints_own_lines_first_witness :
  exists rest,
    [PrintId (Some "align.cwl");
     PrintPackage "bwa" (Some ["0.7.17"])
       (Some ["https://identifiers.org/rrid/RRID:SCR_010910"]);
     PrintId (Some "align.cwl"); PrintPackage "samtools" None None]
    = (fst (extract_software_packages unit Demo.demo_load_field
              (fields_of unit (Workflow Demo.align_fields
                                 [Step (Demo.bare "x") (RunStr "missing.cwl")])))
       ++ rest)%list.
Proof.
  exact (traverse_prints_own_lines_first unit Demo.demo_load_field
           Demo.demo_load_document 2
           (Workflow Demo.align_fields
              [Step (Demo.bare "x") (RunStr "missing.cwl")])
           _ (Raise (OtherError "FileNotFoundError")) eq_refl).
Defined.

Lemma traverse_cycle_never_returns_witness :
  ~ exists fuel r,
      traverse unit Demo.demo_load_field Demo.looping_load_document fuel
        Demo.looping = Some r.
Proof.
  intros (fuel & r & H). unfold Demo.looping in H.
  rewrite (traverse_cycle_never_returns unit Demo.demo_load_field
             Demo.looping_load_document (Demo.bare "loop.cwl")
             (Step (Demo.bare "loop.cwl#again") (RunStr "loop.cwl")) [] [] []
             eq_refl eq_refl eq_refl fuel) in H.
  discriminate.
Defined.

Lemma extract_software_reqs_exceptions_witness :
  exists req,
    In req [Demo.classless_hint; Demo.samtools_hint]
    /\ ((exists kvs, req = DDict kvs /\ entry "class" kvs = None
                     /\ KeyError "class" = KeyError "class")
        \/ ((forall kvs, req <> DDict kvs) /\ KeyError "class" = TypeError)
        \/ (hint_class req = Ok (DStr "SoftwareRequirement")
            /\ Demo.demo_load_field req "tool.cwl" tt = Raise (KeyError "class"))).
Proof.
  exact (extract_software_reqs_exceptions unit Demo.demo_load_field
           Demo.classless_fields (KeyError "class") eq_refl).
Defined.

Lemma main_outcomes_witness :
  (0%Z = 0%Z
   /\ exists prog uri rest top,
       ["cite_extract"; "pipeline.cwl"] = prog :: uri :: rest
       /\ Demo.pipeline_load_document uri = Ok top
       /\ traverse unit Demo.demo_load_field Demo.pipeline_load_document 2 top
          = Some (Demo.pipeline_lines, Ok tt))
  /\ main unit Demo.demo_load_field Demo.pipeline_load_document
       ["cite_extract"] 2
     = Some ([], Raise (OtherError "IndexError"))
  /\ main unit Demo.demo_load_field Demo.pipeline_load_document
       ["cite_extract"; "nowhere.cwl"] 2
     = Some ([], Raise (OtherError "FileNotFoundError")).
Proof.
  split; [|split].
  - exact (proj1 (main_outcomes unit Demo.demo_load_field
                    Demo.pipeline_load_document
                    ["cite_extract"; "pipeline.cwl"] 2)
             Demo.pipeline_lines 0%Z eq_refl).
  - refine (proj1 (proj2 (main_outcomes unit Demo.demo_load_field
                            Demo.pipeline_load_document ["cite_extract"] 2)) _).
    simpl. lia.
  - exact (proj2 (proj2 (main_outcomes unit Demo.demo_load_field
                           Demo.pipeline_load_document
                           ["cite_extract"; "nowhere.cwl"] 2))
             "cite_extract" "nowhere.cwl" [] (OtherError "FileNotFoundError")
             eq_refl eq_refl).
Defined.

End CiteExtractMore.

(** ** The serializer: what else the code shows *)
Module SerializerMore.
Import Py Data Parser Serializer SerializerFacts.

(** Induction on data, through the lists and mappings in it. *)
Lemma data_nested_ind {O : Type} (P : data O -> Prop) :
  P DNone ->
  (forall b, P (DBool b)) ->
  (forall z, P (DInt z)) ->
  (forall s, P (DStr s)) ->
  (forall xs, Forall P xs -> P (DList xs)) ->
  (forall kvs, Forall (fun kv => P (snd kv)) kvs -> P (DDict kvs)) ->
  (forall o, P (DObj o)) ->
  forall v, P v.
Proof.
  intros HN HB HI HS HL HD HO.
  fix IH 1. intros [| b | z | s | xs | kvs | o].
  - exact HN.
  - apply HB.
  - apply HI.
  - apply HS.
  - apply HL. induction xs as [|x xs IHxs]; constructor; [apply IH | exact IHxs].
  - apply HD. induction kvs as [|[k x] kvs IHkvs]; constructor;
      [apply IH | exact IHkvs].
  - apply HO.
Qed.

Lemma each_inv {A B : Type} (f : A -> result B) (xs : list A) (ys : list B) :
  each f xs = Ok ys -> Forall2 (fun x y => f x = Ok y) xs ys.
Proof.
  revert ys. induction xs as [|x xs IH]; intros ys; simpl.
  - intros [= <-]. constructor.
  - destruct (f x) as [y|e] eqn:Hx; simpl; [|discriminate].
    destruct (each f xs) as [ys'|e]; simpl; [|discriminate].
    intros [= <-]. constructor; auto.
Qed.

Lemma each_first_Raise {A B : Type} (f : A -> result B) (pre post : list A)
    (x : A) (ys : list B) (e : exn) :
  Forall2 (fun x y => f x = Ok y) pre ys ->
  f x = Raise e ->
  each f (pre ++ x :: post) = Raise e.
Proof.
  induction 1 as [|a b pre ys Ha _ IH]; intros Hx; simpl.
  - now rewrite Hx.
  - rewrite Ha. simpl. now rewrite (IH Hx).
Qed.

(** The order [>] of lists of integers is a strict total order. *)
Lemma list_gt_strict_total_order (a b c : list Z) :
  list_gt a a = false
  /\ (list_gt a b = true -> list_gt b a = false)
  /\ (list_gt a b = true -> list_gt b c = true -> list_gt a c = true)
  /\ (list_gt a b = true \/ a = b \/ list_gt b a = true).
Proof.
  split; [apply list_gt_irrefl|]. split; [|split].
  - intros Hab. destruct (list_gt b a) eqn:Hba; [|reflexivity].
    pose proof (list_gt_trans _ _ _ Hab Hba) as H.
    now rewrite list_gt_irrefl in H.
  - apply list_gt_trans.
  - clear c. revert b. induction a as [|x a IH]; intros [|y b]; simpl; auto.
    destruct (Z.eqb_spec x y) as [->|Hne].
    + rewrite Z.eqb_refl. destruct (IH b) as [H|[->|H]]; auto.
    + destruct (Z.eqb_spec y x) as [->|_]; [contradiction|].
      destruct (Z.ltb_spec y x); [now left|]. right. right.
      apply Z.ltb_lt. lia.
Qed.

(** *** [int] and [split] on texts of digits *)

Lemma is_digit_not_space (c : ascii) : is_digit c = true -> is_space c = false.
Proof.
  unfold is_digit, is_space. intros H.
  apply andb_true_iff in H as [H1 H2].
  apply Nat.leb_le in H1. apply Nat.leb_le in H2.
  repeat (apply orb_false_iff; split); try (apply Nat.eqb_neq; lia).
  apply andb_false_iff. right. apply Nat.leb_gt. lia.
Qed.

Lemma filter_is_digit (ds : list ascii) :
  Forall (fun c => is_digit c = true) ds -> List.filter is_digit ds = ds.
Proof.
  induction 1 as [|c ds Hc _ IH]; simpl; [reflexivity|].
  now rewrite Hc, IH.
Qed.

Lemma is_digit_not (c : ascii) (n : nat) :
  is_digit c = true -> n < 48 -> Ascii.eqb c (ascii_of_nat n) = false.
Proof.
  unfold is_digit. intros H Hn.
  apply andb_true_iff in H as [H1 H2].
  apply Nat.leb_le in H1. apply Nat.leb_le in H2.
  destruct (Ascii.eqb_spec c (ascii_of_nat n)) as [->|]; [|reflexivity].
  rewrite nat_ascii_embedding in H1, H2 by lia. lia.
Qed.

Lemma lstrip_space_digits (ds : list ascii) :
  Forall (fun c => is_digit c = true) ds -> lstrip_space ds = ds.
Proof.
  intros [|c ds' Hc _]; simpl; [reflexivity|].
  now rewrite (is_digit_not_space c Hc).
Qed.

Lemma strip_space_digits (ds : list ascii) :
  Forall (fun c => is_digit c = true) ds -> strip_space ds = ds.
Proof.
  intros H. unfold strip_space. rewrite (lstrip_space_digits ds H).
  rewrite lstrip_space_digits.
  - apply rev_involutive.
  - apply List.Forall_forall. intros c Hc. apply in_rev in Hc.
    revert c Hc. now apply List.Forall_forall.
Qed.

Lemma digits_number (ds : list ascii) (acc : Z) (after_digit : bool) :
  Forall (fun c => is_digit c = true) ds ->
  ds <> [] \/ after_digit = true ->
  digits acc after_digit ds
  = Some (fold_left (fun a c => (10 * a + digit_value c)%Z) ds acc).
Proof.
  intros H. revert acc after_digit.
  induction H as [|c ds Hc _ IH]; intros acc after_digit Hne; simpl.
  - destruct Hne as [Hne| ->]; [contradiction | reflexivity].
  - rewrite Hc. apply IH. now right.
Qed.

Lemma py_int_digits (ds : list ascii) :
  Forall (fun c => is_digit c = true) ds ->
  ds <> [] ->
  length ds <= int_max_str_digits ->
  py_int (string_of_list_ascii ds) = Ok (number ds).
Proof.
  intros H Hne Hlen. unfold py_int.
  rewrite list_ascii_of_string_of_list_ascii, (strip_space_digits ds H).
  rewrite (filter_is_digit ds H).
  apply Nat.leb_le in Hlen. rewrite Hlen. clear Hlen.
  destruct ds as [|c ds']; [contradiction|].
  inversion H as [|? ? Hc Hrest]; subst.
  change "-"%char with (ascii_of_nat 45).
  change "+"%char with (ascii_of_nat 43).
  rewrite (is_digit_not c 45 Hc), (is_digit_not c 43 Hc) by lia.
  rewrite (digits_number (c :: ds') 0 false H) by (left; discriminate).
  reflexivity.
Qed.

Lemma split_dot_no_dot (ds : list ascii) :
  Forall (fun c => is_digit c = true) ds ->
  split_dot (string_of_list_ascii ds) = [string_of_list_ascii ds].
Proof.
  induction 1 as [|c ds Hc _ IH]; simpl; [reflexivity|].
  change "."%char with (ascii_of_nat 46).
  rewrite (is_digit_not c 46 Hc) by lia. now rewrite IH.
Qed.

Lemma split_dot_app (ds : list ascii) (s : string) :
  Forall (fun c => is_digit c = true) ds ->
  split_dot (string_of_list_ascii ds ++ String "."%char s)
  = string_of_list_ascii ds :: split_dot s.
Proof.
  induction 1 as [|c ds Hc _ IH]; simpl.
  - reflexivity.
  - change "."%char with (ascii_of_nat 46) at 1.
    rewrite (is_digit_not c 46 Hc) by lia. now rewrite IH.
Qed.

Lemma split_dot_join (parts : list (list ascii)) :
  parts <> [] ->
  Forall (Forall (fun c => is_digit c = true)) parts ->
  split_dot (join "." (map string_of_list_ascii parts))
  = map string_of_list_ascii parts.
Proof.
  intros Hne H. induction H as [|p ps Hp Hps IH]; [contradiction|].
  destruct ps as [|q ps'].
  - simpl. now apply split_dot_no_dot.
  - change (join "." (map string_of_list_ascii (p :: q :: ps')))
      with (string_of_list_ascii p
            ++ String "."%char (join "." (map string_of_list_ascii (q :: ps')))).
    rewrite (split_dot_app p _ Hp). rewrite IH by discriminate. reflexivity.
Qed.

Section SaveMore.

Variable Saveable : Type.
Variable module_of : Saveable -> cwl_module.
Variable instance_of_Process : Saveable -> bool.
Variable Saveable_save :
  Saveable -> bool -> string -> bool -> result (data Saveable).

(** [version_split] of a version written as one character followed by
    texts of decimal digits with dots between them gives the numbers these
    texts write; the first character is not looked at.  A text of more
    than [int_max_str_digits] digits is one [int] refuses. *)
Theorem version_split_decimal (c : ascii) (parts : list (list ascii)) :
  parts <> [] ->
  Forall (fun ds => ds <> [] /\ length ds <= int_max_str_digits
                    /\ Forall (fun c => is_digit c = true) ds) parts ->
  version_split Saveable
    (DStr (String c (join "." (map string_of_list_ascii parts))))
  = Ok (map number parts).
Proof.
  intros Hne H. simpl.
  rewrite split_dot_join; [|exact Hne|].
  2:{ eapply Forall_impl; [exact H|]. now intros ds (_ & _ & Hd). }
  apply each_Forall2. clear Hne.
  induction H as [|ds parts (Hds & Hlen & Hd) _ IH]; simpl; constructor; auto.
  now apply py_int_digits.
Qed.

(** On plain data, with [top] false, [save] gives back what it was
    given. *)
Theorem save_plain_data (v : data Saveable) (base_url : string)
    (relative_uris : bool) :
  no_object v = true ->
  save Saveable module_of instance_of_Process Saveable_save v false base_url
    relative_uris = Ok v.
Proof.
  induction v as [| b | z | s | xs IH | kvs IH | o] using data_nested_ind;
    try reflexivity; try discriminate.
  - simpl. intros Hplain.
    assert (Heach : each (fun v => save Saveable module_of instance_of_Process
                                     Saveable_save v false base_url relative_uris)
                      xs = Ok xs).
    { apply each_Forall2.
      induction IH as [|x xs Hx _ IHxs]; [constructor|].
      simpl in Hplain. apply andb_true_iff in Hplain as [H1 H2].
      constructor; auto. }
    now rewrite Heach.
  - simpl. intros Hplain.
    assert (Heach : each (fun kv : string * data Saveable =>
                            let (key, v) := kv in
                            let? x := save Saveable module_of instance_of_Process
                                        Saveable_save v false base_url
                                        relative_uris in
                            Ok (key, x)) kvs = Ok kvs).
    { apply each_Forall2.
      induction IH as [|[k x] kvs Hx _ IHkvs]; [constructor|].
      simpl in Hplain. apply andb_true_iff in Hplain as [H1 H2].
      constructor; auto. simpl in Hx. now rewrite (Hx H1). }
    now rewrite Heach.
Qed.

(** [save] of a mapping keeps its keys, in their order, and saves every
    value with [top] false, whatever [top] it was given. *)
Theorem save_mapping_keys (kvs : list (string * data Saveable)) (top : bool)
    (base_url : string) (relative_uris : bool) (res : data Saveable) :
  save Saveable module_of instance_of_Process Saveable_save (DDict kvs) top
    base_url relative_uris = Ok res ->
  exists newdict,
    res = DDict newdict
    /\ map fst newdict = map fst kvs
    /\ Forall2 (fun kv kv' =>
                  save Saveable module_of instance_of_Process Saveable_save
                    (snd kv) false base_url relative_uris = Ok (snd kv'))
         kvs newdict.
Proof.
  simpl.
  destruct (each _ kvs) as [newdict|e] eqn:He; simpl; [|discriminate].
  intros [= <-]. exists newdict. split; [reflexivity|].
  apply each_inv in He. clear -He.
  induction He as [|[k v] [k' v'] kvs newdict Hkv _ [IH1 IH2]]; simpl.
  - split; constructor.
  - destruct (save _ _ _ _ v false base_url relative_uris) as [x|e] eqn:Hv;
      simpl in Hkv; [|discriminate].
    injection Hkv as <- <-. split; [now f_equal | now constructor].
Qed.

(** Unless [top] is true and every element is a Process, [save] of a
    sequence is the sequence of the saved elements, each saved with the same
    [top]: no ["$graph"] is built. *)
Theorem save_sequence_elementwise (xs : list (data Saveable)) (top : bool)
    (base_url : string) (relative_uris : bool) (res : data Saveable) :
  top && forallb (is_process Saveable module_of instance_of_Process) xs = false ->
  save Saveable module_of instance_of_Process Saveable_save (DList xs) top
    base_url relative_uris = Ok res ->
  exists lst,
    res = DList lst
    /\ Forall2 (fun v e =>
                  save Saveable module_of instance_of_Process Saveable_save
                    v top base_url relative_uris = Ok e) xs lst.
Proof.
  intros Hnot. simpl.
  destruct (each _ xs) as [lst|e] eqn:He; simpl; [|discriminate].
  rewrite Hnot. intros [= <-]. exists lst. split; [reflexivity|].
  now apply each_inv.
Qed.

(** The first element whose [save] raises decides: [save] of the sequence
    raises that exception. *)
Theorem save_sequence_first_exception (pre post : list (data Saveable))
    (v : data Saveable) (lst : list (data Saveable)) (top : bool)
    (base_url : string) (relative_uris : bool) (e : exn) :
  Forall2 (fun x y =>
             save Saveable module_of instance_of_Process Saveable_save
               x top base_url relative_uris = Ok y) pre lst ->
  save Saveable module_of instance_of_Process Saveable_save v top base_url
    relative_uris = Raise e ->
  save Saveable module_of instance_of_Process Saveable_save
    (DList (pre ++ v :: post)) top base_url relative_uris = Raise e.
Proof.
  intros Hpre Hv. simpl.
  now rewrite (each_first_Raise _ pre post v lst e Hpre Hv).
Qed.

Lemma process_sequence_saved (xs lst : list (data Saveable))
    (base_url : string) (relative_uris : bool) :
  Forall2 (fun v e =>
             exists o, v = DObj o
                       /\ instance_of_Process o = true
                       /\ Saveable_save o true base_url relative_uris = Ok e)
    xs lst ->
  each (fun v => save Saveable module_of instance_of_Process Saveable_save
                   v true base_url relative_uris) xs = Ok lst
  /\ forallb (is_process Saveable module_of instance_of_Process) xs = true
  /\ Forall2 (fun v e : data Saveable =>
                is_process Saveable module_of instance_of_Process v = true)
       xs lst.
Proof.
  intros Hsave.
  assert (Hproc : Forall2 (fun v e : data Saveable =>
                             is_process Saveable module_of instance_of_Process v
                             = true) xs lst).
  { eapply Forall2_impl; [exact Hsave|].
    intros v e (o & -> & Hp & _). now rewrite is_process_object. }
  split; [|split; [|exact Hproc]].
  - apply each_Forall2. eapply Forall2_impl; [exact Hsave|].
    intros v e (o & -> & _ & Ho). now rewrite save_object.
  - clear -Hproc. induction Hproc as [|v e xs lst Hv _ IH]; simpl; [reflexivity|].
    now rewrite Hv, IH.
Qed.

(** With [top] true, a sequence of Process objects none of whose
    serializations has a cwlVersion makes [save] raise ValueError; the empty
    sequence is one. *)
Theorem save_without_versions (xs lst : list (data Saveable))
    (base_url : string) (relative_uris : bool) :
  Forall2 (fun v e =>
             exists o, v = DObj o
                       /\ instance_of_Process o = true
                       /\ Saveable_save o true base_url relative_uris = Ok e)
    xs lst ->
  Forall (fun e => exists kvs, e = DDict kvs
                               /\ default DNone (entry "cwlVersion" kvs) = DNone)
    lst ->
  save Saveable module_of instance_of_Process Saveable_save (DList xs) true
    base_url relative_uris = Raise ValueError.
Proof.
  intros Hsave Hnone.
  destruct (process_sequence_saved xs lst base_url relative_uris Hsave)
    as (Heach & Hall & Hproc).
  simpl. rewrite Heach. simpl. rewrite Hall.
  rewrite (versions_of_processes Saveable module_of instance_of_Process
             xs lst (map (fun _ => DNone) lst) Hproc).
  2:{ clear -Hnone. induction Hnone as [|e lst (kvs & -> & Hk) _ IH]; simpl;
        constructor; auto. simpl. now rewrite Hk. }
  simpl.
  assert (Hfilter : List.filter (fun v : data Saveable => negb (is_None v))
                      (map (fun _ => DNone) lst) = []).
  { clear. induction lst as [|e lst IH]; simpl; auto. }
  now rewrite Hfilter.
Qed.

Lemma max_from_first (key : data Saveable -> result (list Z))
    (items : list (data Saveable)) (keys : list (list Z)) :
  Forall2 (fun v k => key v = Ok k) items keys ->
  forall seen kseen m km skipped kskipped,
    Forall2 (fun v k => key v = Ok k) seen kseen ->
    Forall (fun k => list_gt km k = true) kseen ->
    key m = Ok km ->
    Forall2 (fun v k => key v = Ok k) skipped kskipped ->
    Forall (fun k => list_gt k km = false) kskipped ->
    exists latest kl pre post kpre,
      max_from Saveable key m km items = Ok latest
      /\ (seen ++ m :: skipped ++ items = pre ++ latest :: post)%list
      /\ key latest = Ok kl
      /\ Forall2 (fun v k => key v = Ok k) pre kpre
      /\ Forall (fun k => list_gt kl k = true) kpre.
Proof.
  induction 1 as [|item k items keys Hk _ IH];
    intros seen kseen m km skipped kskipped Hseen Hlow Hm Hskip Hle; simpl.
  - exists m, km, seen, skipped, kseen. rewrite app_nil_r. auto.
  - rewrite Hk. simpl. destruct (list_gt k km) eqn:Hgt.
    + destruct (IH (seen ++ m :: skipped)%list (kseen ++ km :: kskipped)%list
                  item k [] [])
        as (latest & kl & pre & post & kpre & Hmax & Hsplit & Hkl & Hpre & Hbelow).
      * apply Forall2_app; [exact Hseen|]. constructor; auto.
      * apply Forall_app. split.
        -- eapply Forall_impl; [exact Hlow|]. intros k' Hk'.
           eapply list_gt_trans; eauto.
        -- constructor; [exact Hgt|].
           eapply Forall_impl; [exact Hle|]. intros k' Hk'.
           destruct (list_gt_cotrans _ k' _ Hgt) as [H|H]; [exact H | congruence].
      * exact Hk.
      * constructor.
      * constructor.
      * exists latest, kl, pre, post, kpre. repeat split; auto.
        rewrite <- Hsplit. simpl. now rewrite <- !app_assoc.
    + destruct (IH seen kseen m km (skipped ++ [item])%list
                  (kskipped ++ [k])%list Hseen Hlow Hm)
        as (latest & kl & pre & post & kpre & Hmax & Hsplit & Hkl & Hpre & Hbelow).
      * apply Forall2_app; [exact Hskip|]. constructor; auto.
      * apply Forall_app. split; [exact Hle|]. constructor; auto.
      * exists latest, kl, pre, post, kpre. repeat split; auto.
        rewrite <- Hsplit. now rewrite <- !app_assoc.
Qed.

(** Among the cwlVersion values with the greatest [version_split], [save]
    takes the first: every value before [latest] has a strictly smaller
    one. *)
Theorem save_latest_is_first
    (xs lst vers : list (data Saveable)) (keys : list (list Z))
    (base_url : string) (relative_uris : bool) :
  Forall2 (fun v e =>
             exists o, v = DObj o
                       /\ instance_of_Process o = true
                       /\ Saveable_save o true base_url relative_uris = Ok e)
    xs lst ->
  Forall2 (fun e x =>
             exists kvs, e = DDict kvs
                         /\ x = default DNone (entry "cwlVersion" kvs))
    lst vers ->
  Forall2 (fun v k => version_split Saveable v = Ok k)
    (List.filter (fun v => negb (is_None v)) vers) keys ->
  keys <> [] ->
  exists latest kl pre post kpre,
    save Saveable module_of instance_of_Process Saveable_save
      (DList xs) true base_url relative_uris
    = Ok (DDict [("cwlVersion", latest); ("$graph", DList lst)])
    /\ List.filter (fun v => negb (is_None v)) vers = (pre ++ latest :: post)%list
    /\ version_split Saveable latest = Ok kl
    /\ Forall2 (fun v k => version_split Saveable v = Ok k) pre kpre
    /\ Forall (fun k => list_gt kl k = true) kpre.
Proof.
  intros Hsave Hvers Hkeys Hne.
  destruct (process_sequence_saved xs lst base_url relative_uris Hsave)
    as (Heach & Hall & Hproc).
  destruct (List.filter (fun v => negb (is_None v)) vers) as [|item items] eqn:Hf.
  { inversion Hkeys; subst. contradiction. }
  inversion Hkeys as [|? k ? keys' Hk Hrest]; subst.
  destruct (max_from_first (version_split Saveable) items keys' Hrest
              [] [] item k [] [])
    as (latest & kl & pre & post & kpre & Hmax & Hsplit & Hkl & Hpre & Hbelow);
    try constructor; auto.
  exists latest, kl, pre, post, kpre. repeat split; auto.
  simpl. rewrite Heach. simpl. rewrite Hall.
  rewrite (versions_of_processes Saveable module_of instance_of_Process
             xs lst vers Hproc).
  2:{ eapply Forall2_impl; [exact Hvers|].
      intros e x (kvs & -> & ->). reflexivity. }
  simpl. rewrite Hf. simpl. rewrite Hk. simpl. now rewrite Hmax.
Qed.

End SaveMore.

Abbreviation demo_save' :=
  (save Demo.demo_object Demo.its_module Demo.demo_is_Process Demo.demo_save).

Lemma version_split_decimal_witness :
  version_split Demo.demo_object (DStr "v1.2") = Ok [1; 2]%Z.
Proof.
  refine (version_split_decimal Demo.demo_object "v"%char
            [["1"%char]; ["2"%char]] _ _).
  - discriminate.
  - repeat constructor; simpl; try discriminate; lia.
Defined.

Lemma save_plain_data_witness :
  demo_save'
    (DDict [("class", DStr "File"); ("size", DInt 3);
            ("secondaryFiles", DList [DNone; DBool true])]) false "" true
  = Ok (DDict [("class", DStr "File"); ("size", DInt 3);
               ("secondaryFiles", DList [DNone; DBool true])]).
Proof.
  refine (save_plain_data Demo.demo_object Demo.its_module Demo.demo_is_Process
            Demo.demo_save
            (DDict [("class", DStr "File"); ("size", DInt 3);
                    ("secondaryFiles", DList [DNone; DBool true])])
            "" true _).
  reflexivity.
Defined.

Lemma save_mapping_keys_witness :
  exists newdict,
    DDict [("run", DDict [("id", DStr "a"); ("class", DStr "CommandLineTool");
                          ("cwlVersion", DStr "v1.0")]);
           ("label", DStr "first")]
    = DDict newdict
    /\ map fst newdict
       = map fst [("run", DObj Demo.tool_v1_0); ("label", DStr "first")]
    /\ Forall2 (fun kv kv' => demo_save' (snd kv) false "" true = Ok (snd kv'))
         [("run", DObj Demo.tool_v1_0); ("label", DStr "first")] newdict.
Proof.
  exact (save_mapping_keys Demo.demo_object Demo.its_module
           Demo.demo_is_Process Demo.demo_save
           [("run", DObj Demo.tool_v1_0); ("label", DStr "first")]
           true "" true _ eq_refl).
Defined.

Lemma save_sequence_elementwise_witness :
  exists lst,
    DList [DDict [("id", DStr "a"); ("class", DStr "CommandLineTool");
                  ("cwlVersion", DStr "v1.0")];
           DStr "x"]
    = DList lst
    /\ Forall2 (fun v e => demo_save' v true "" true = Ok e)
         [DObj Demo.tool_v1_0; DStr "x"] lst.
Proof.
  exact (save_sequence_elementwise Demo.demo_object Demo.its_module
           Demo.demo_is_Process Demo.demo_save
           [DObj Demo.tool_v1_0; DStr "x"] true "" true _ eq_refl eq_refl).
Defined.

(** An empty list inside the sequence is itself saved with [top] true. *)
Lemma save_sequence_first_exception_witness :
  demo_save' (DList [DObj Demo.tool_v1_0; DList []; DStr "x"]) true "" true
  = Raise ValueError.
Proof.
  refine (save_sequence_first_exception Demo.demo_object Demo.its_module
            Demo.demo_is_Process Demo.demo_save
            [DObj Demo.tool_v1_0] [DStr "x"] (DList []) _ true "" true
            ValueError _ eq_refl).
  repeat constructor.
Defined.

Lemma save_without_versions_witness :
  demo_save' (DList []) true "" true = Raise ValueError
  /\ demo_save' (DList [DObj Demo.embedded_tool]) true "" true
     = Raise ValueError.
Proof.
  split.
  - refine (save_without_versions Demo.demo_object Demo.its_module
              Demo.demo_is_Process Demo.demo_save [] [] "" true _ _);
      constructor.
  - refine (save_without_versions Demo.demo_object Demo.its_module
              Demo.demo_is_Process Demo.demo_save [DObj Demo.embedded_tool]
              _ "" true _ _).
    + repeat constructor. eexists. repeat split; reflexivity.
    + repeat constructor. eexists. split; reflexivity.
Defined.

(** Two versions with the same numbers: the first is taken. *)
Lemma save_latest_is_first_witness :
  exists latest kl pre post kpre,
    demo_save'
      (DList [DObj Demo.tool_v1_0;
              DObj {| Demo.its_module := cwl_v1_2; Demo.its_id := "d";
                      Demo.its_cwlVersion := Some "v1.02" |};
              DObj Demo.tool_v1_2]) true "" true
    = Ok (DDict
            [("cwlVersion", latest);
             ("$graph",
              DList
                [DDict [("id", DStr "a"); ("class", DStr "CommandLineTool");
                        ("cwlVersion", DStr "v1.0")];
                 DDict [("id", DStr "d"); ("class", DStr "CommandLineTool");
                        ("cwlVersion", DStr "v1.02")];
                 DDict [("id", DStr "b"); ("class", DStr "CommandLineTool");
                        ("cwlVersion", DStr "v1.2")]])])
    /\ List.filter (fun v => negb (is_None v))
         [DStr "v1.0"; DStr "v1.02"; DStr "v1.2"]
       = (pre ++ latest :: post)%list
    /\ version_split Demo.demo_object latest = Ok kl
    /\ Forall2 (fun v k => version_split Demo.demo_object v = Ok k) pre kpre
    /\ Forall (fun k => list_gt kl k = true) kpre.
Proof.
  refine (save_latest_is_first Demo.demo_object Demo.its_module
            Demo.demo_is_Process Demo.demo_save
            [DObj Demo.tool_v1_0;
             DObj {| Demo.its_module := cwl_v1_2; Demo.its_id := "d";
                     Demo.its_cwlVersion := Some "v1.02" |};
             DObj Demo.tool_v1_2]
            _ [DStr "v1.0"; DStr "v1.02"; DStr "v1.2"]
            [[1; 0]; [1; 2]; [1; 2]]%Z "" true _ _ _ _).
  - repeat constructor; eexists; repeat split; reflexivity.
  - repeat constructor; eexists; split; reflexivity.
  - repeat constructor.
  - discriminate.
Defined.

End SerializerMore.

(** ** The loader: what else the code shows *)
Module ParserMore.
Import Py Parser ParserFacts.
Local Open Scope py_scope.

Lemma lstrip_hash_no_hash (s t : string) :
  lstrip_hash s <> String "#"%char t.
Proof.
  induction s as [|c s IH]; simpl; [discriminate|].
  destruct (Ascii.eqb_spec c "#"%char) as [->|Hne]; [exact IH|].
  intros [= -> _]. contradiction.
Qed.

Lemma stripped_id_Ok (h : heap) (el : val) (s0 : string) :
  stripped_id h el = Ok s0 -> exists s, has_id h el s /\ s0 = lstrip_hash s.
Proof.
  unfold stripped_id.
  destruct (getitem h el "id") as [i|] eqn:Hi; simpl; [|discriminate].
  apply getitem_Ok in Hi as (d & Hd & Hid).
  destruct i as [| | |s|]; try discriminate.
  intros [= <-]. exists s. split; [|reflexivity]. exists d. auto.
Qed.

Lemma graph_search_sound (h : heap) (id_ : option string) (els : list val)
    (el : val) :
  graph_search h (requested id_) els = Ok (Some el) ->
  exists pre post s,
    els = (pre ++ el :: post)%list
    /\ has_id h el s
    /\ lstrip_hash s = requested id_
    /\ Forall (other_id h id_) pre.
Proof.
  induction els as [|x els IH]; simpl; [discriminate|].
  destruct (stripped_id h x) as [s0|] eqn:Hx; simpl; [|discriminate].
  apply stripped_id_Ok in Hx as (s & Hs & ->).
  destruct (String.eqb_spec (lstrip_hash s) (requested id_)) as [Heq|Hne].
  - intros [= <-]. exists [], els, s. repeat split; auto.
  - intros H. destruct (IH H) as (pre & post & s' & -> & Hel & Hs' & Hpre).
    exists (x :: pre), post, s'. repeat split; auto.
    constructor; [exists s; auto | exact Hpre].
Qed.

Lemma iterate_of_mappings (h : heap) (g el : val) (els : list val) (d : dict) :
  iterate h g = Ok els -> In el els -> as_mapping h el = Some d ->
  as_sequence h g = Some els.
Proof.
  destruct g as [| | |s|l]; simpl; try discriminate.
  - intros [= <-] Hin Hd. exfalso. clear -Hin Hd.
    induction s as [|c s IH]; simpl in Hin; [contradiction|].
    destruct Hin as [<-|Hin]; [discriminate | auto].
  - destruct (h !! l) as [[dg|xs|]|]; try discriminate.
    + intros [= <-] Hin Hd. exfalso. apply in_map_iff in Hin as (k & <- & _).
      discriminate.
    + intros [= <-] _ _. reflexivity.
Qed.

Lemma get_id_from_graph_stripped (h : heap) (yaml el : val)
    (id_ : option string) :
  _get_id_from_graph h yaml id_ = Ok el ->
  exists s, lstrip_hash s = requested id_.
Proof.
  unfold _get_id_from_graph.
  change (match id_ with Some s0 => s0 | None => "main" end)
    with (requested id_).
  destruct (getitem h yaml "$graph") as [g|]; simpl; [|discriminate].
  destruct (iterate h g) as [els|]; simpl; [|discriminate].
  destruct (graph_search h (requested id_) els) as [[x|]|] eqn:Hs; simpl;
    try discriminate.
  - intros _.
    destruct (graph_search_sound _ _ _ _ Hs) as (_ & _ & s & _ & _ & Hstrip & _).
    eauto.
  - destruct (graph_ids h els); simpl; discriminate.
Qed.

(** What [_get_id_from_graph] returns is an element of the ["$graph"]
    sequence whose id, leading '#' characters stripped, is the requested
    one, and every element before it is a mapping with another string id. *)
Theorem get_id_from_graph_sound (h : heap) (yaml el : val)
    (id_ : option string) :
  _get_id_from_graph h yaml id_ = Ok el ->
  exists d g pre post s,
    as_mapping h yaml = Some d
    /\ dict_get "$graph" d = Some g
    /\ as_sequence h g = Some (pre ++ el :: post)%list
    /\ has_id h el s
    /\ lstrip_hash s = requested id_
    /\ Forall (other_id h id_) pre.
Proof.
  unfold _get_id_from_graph.
  change (match id_ with Some s0 => s0 | None => "main" end)
    with (requested id_).
  destruct (getitem h yaml "$graph") as [g|] eqn:Hg; simpl; [|discriminate].
  apply getitem_Ok in Hg as (d & Hd & Hg).
  destruct (iterate h g) as [els|] eqn:Hels; simpl; [|discriminate].
  destruct (graph_search h (requested id_) els) as [[x|]|] eqn:Hs; simpl;
    try discriminate.
  - intros [= ->].
    destruct (graph_search_sound _ _ _ _ Hs)
      as (pre & post & s & -> & Hel & Hstrip & Hpre).
    exists d, g, pre, post, s. repeat split; auto.
    destruct Hel as (de & Hde & _).
    eapply iterate_of_mappings; eauto. apply in_elt.
  - destruct (graph_ids h els); simpl; discriminate.
Qed.

(** The requested id is compared as given: one that begins with '#' is the
    stripped id of no element, so [_get_id_from_graph] raises, and
    [load_document_by_yaml] on a graph document raises with it and writes
    nothing. *)
Theorem hash_request_never_selects (h : heap) (yaml : val) (t : string) :
  exists e,
    _get_id_from_graph h yaml (Some (String "#"%char t)) = Raise e
    /\ (forall (L : cwl_module -> val -> string -> val -> M val) d uri lo,
          as_mapping h yaml = Some d ->
          dict_mem "$graph" d = true ->
          load_document_by_yaml L yaml uri lo (Some (String "#"%char t)) false h
          = (h, Raise e)).
Proof.
  assert (Hraise : exists e,
             _get_id_from_graph h yaml (Some (String "#"%char t)) = Raise e).
  { destruct (_get_id_from_graph h yaml (Some (String "#"%char t)))
      as [el|e] eqn:Hsel; [|eauto].
    exfalso.
    destruct (get_id_from_graph_stripped _ _ _ _ Hsel) as [s Hs].
    exact (lstrip_hash_no_hash s t Hs). }
  destruct Hraise as [e He]. exists e. split; [exact He|].
  intros L d uri lo Hd Hmem.
  rewrite (load_document_by_yaml_mapping L h yaml d uri lo _ false Hd).
  simpl. rewrite Hmem. simpl. unfold bind at 1.
  now rewrite (select_from_graph_Raise _ _ _ _ _ He).
Qed.

Section LoadMore.

Variable L : cwl_module -> val -> string -> val -> M val.
Variable yaml_load : string -> M val.
Variable file_uri_getcwd : string.

(** What is not a MutableMapping is refused with a ValidationException
    before anything is written or any parser module is called: by
    [load_document_by_yaml] whatever it is given, by
    [load_document_by_string] and [load_document] for a text that the YAML
    reader reads as something else.  An exception of the YAML reader is
    the outcome. *)
Theorem loaders_refuse_non_mappings (h : heap) (uri : string) (lo : val)
    (id_ : option string) (load_all : bool) :
  let refused :=
    Raise (A := val) (ValidationException (Text "MutableMapping is required")) in
  (forall yaml,
      as_mapping h yaml = None ->
      load_document_by_yaml L yaml uri lo id_ load_all h = (h, refused))
  /\ (forall text h1 v,
        yaml_load text h = (h1, Ok v) ->
        as_mapping h1 v = None ->
        load_document_by_string L yaml_load text uri lo id_ load_all h
        = (h1, refused)
        /\ load_document L yaml_load file_uri_getcwd (VStr text) (Some uri) lo
             id_ load_all h = (h1, refused))
  /\ (forall text h1 e,
        yaml_load text h = (h1, Raise e) ->
        load_document_by_string L yaml_load text uri lo id_ load_all h
        = (h1, Raise e)).
Proof.
  intros refused.
  assert (Hyaml : forall h0 yaml b,
             as_mapping h0 yaml = None ->
             load_document_by_yaml L yaml uri lo id_ b h0 = (h0, refused)).
  { intros h0 yaml b Hn. unfold load_document_by_yaml.
    unfold bind at 1. unfold reading at 1. unfold cwl_version.
    now rewrite Hn. }
  split; [|split].
  - intros yaml. apply Hyaml.
  - intros text h1 v Hload Hn. split.
    + unfold load_document_by_string. unfold bind at 1. rewrite Hload.
      now apply Hyaml.
    + unfold load_document, load_document_by_string. unfold bind at 1.
      rewrite Hload. now apply Hyaml.
  - intros text h1 e Hload. unfold load_document_by_string. unfold bind at 1.
    now rewrite Hload.
Qed.

End LoadMore.

(** *** The result of the parser module *)

Lemma dict_set_twice (k : string) (v : val) (d : dict) :
  dict_set k v (dict_set k v d) = dict_set k v d.
Proof. apply dict_set_same, dict_get_set. Qed.

Lemma stamp_version_instance (version : val) (h : heap) (l : loc)
    (c : string) (attrs : list string) (fields : dict) :
  h !! l = Some (OInst c attrs fields) ->
  stamp_version version (VRef l) h
  = (<[l := versioned version [VRef l] l (OInst c attrs fields)]> h, Ok tt).
Proof.
  intros Hl. unfold stamp_version, versioned. rewrite Hl.
  cbn [existsb refers_to]. rewrite Pos.eqb_refl. cbn [orb andb].
  destruct (existsb (String.eqb "cwlVersion") attrs); [reflexivity|].
  now rewrite insert_id.
Qed.

Lemma versioned_cons_same (version : val) (rs : list val) (l : loc)
    (c : string) (attrs : list string) (fields : dict) :
  versioned version rs l (versioned version [VRef l] l (OInst c attrs fields))
  = versioned version (VRef l :: rs) l (OInst c attrs fields).
Proof.
  unfold versioned. cbn [existsb refers_to]. rewrite Pos.eqb_refl.
  cbn [orb andb].
  destruct (existsb (String.eqb "cwlVersion") attrs) eqn:Ha.
  - rewrite Ha, andb_true_r, dict_set_twice.
    now destruct (existsb (refers_to l) rs).
  - rewrite Ha, andb_false_r. reflexivity.
Qed.

Lemma versioned_cons_other (version : val) (rs : list val) (l l0 : loc)
    (o : obj) :
  l <> l0 ->
  versioned version (VRef l0 :: rs) l o = versioned version rs l o.
Proof.
  intros Hne. unfold versioned. cbn [existsb refers_to].
  destruct (Pos.eqb_spec l0 l) as [->|_]; [contradiction | reflexivity].
Qed.

Lemma stamp_all_instances (version : val) (ln : loc) (rs : list val) :
  forall (h : heap) (acc : list val),
    h !! ln = Some (OList acc) ->
    Forall (is_instance h) rs ->
    exists h',
      stamp_all version (VRef ln) rs h = (h', Ok tt)
      /\ h' !! ln = Some (OList (acc ++ rs)%list)
      /\ (forall l o, l <> ln -> h !! l = Some o ->
                      h' !! l = Some (versioned version rs l o))
      /\ (forall l, h !! l = None -> h' !! l = None).
Proof.
  induction rs as [|r rs IH]; intros h acc Hln Hrs.
  - exists h. simpl. rewrite app_nil_r. repeat split; auto.
    intros l o _ Hl. rewrite Hl. f_equal. unfold versioned.
    destruct o; reflexivity.
  - inversion Hrs as [|? ? (l0 & c & attrs & fields & -> & Hl0) Hrest]; subst.
    assert (Hne : l0 <> ln) by (intros ->; congruence).
    set (o0 := versioned version [VRef l0] l0 (OInst c attrs fields)).
    set (ha := <[l0 := o0]> h).
    set (hb := <[ln := OList (acc ++ [VRef l0])%list]> ha).
    assert (Hrun : stamp_all version (VRef ln) (VRef l0 :: rs) h
                   = stamp_all version (VRef ln) rs hb).
    { simpl. unfold bind at 1.
      rewrite (stamp_version_instance version h l0 c attrs fields Hl0).
      fold o0. fold ha. unfold bind at 1. unfold append.
      assert (Hha : ha !! ln = Some (OList acc))
        by (unfold ha; now rewrite lookup_insert_ne).
      now rewrite Hha. }
    assert (Ho0 : exists f', o0 = OInst c attrs f').
    { unfold o0, versioned.
      destruct (existsb (refers_to l0) [VRef l0]
                && existsb (String.eqb "cwlVersion") attrs); eauto. }
    destruct (IH hb (acc ++ [VRef l0])%list) as (h' & Hstamp & Hlist & Hobj & Hnone).
    + unfold hb. now rewrite lookup_insert_eq.
    + eapply Forall_impl; [exact Hrest|].
      intros r (l & c' & a' & f' & -> & Hl).
      assert (l <> ln) by (intros ->; congruence).
      destruct (decide (l = l0)) as [->|Hl'].
      * destruct Ho0 as [f0 Hf0]. exists l0, c, attrs, f0. split; [reflexivity|].
        unfold hb, ha. rewrite lookup_insert_ne by auto.
        rewrite lookup_insert_eq. now f_equal.
      * exists l, c', a', f'. split; [reflexivity|].
        unfold hb, ha. now rewrite !lookup_insert_ne by auto.
    + exists h'. rewrite Hrun. split; [exact Hstamp|]. split; [|split].
      * rewrite Hlist. now rewrite <- app_assoc.
      * intros l o Hlne Hl.
        destruct (decide (l = l0)) as [->|Hl'].
        -- assert (o = OInst c attrs fields) by congruence. subst o.
           rewrite (Hobj l0 o0 Hlne).
           ++ unfold o0. now rewrite versioned_cons_same.
           ++ unfold hb, ha. rewrite lookup_insert_ne by auto.
              now rewrite lookup_insert_eq.
        -- rewrite (Hobj l o Hlne).
           ++ now rewrite versioned_cons_other.
           ++ unfold hb, ha. now rewrite !lookup_insert_ne by auto.
      * intros l Hl. apply Hnone.
        unfold hb, ha. rewrite !lookup_insert_ne; [exact Hl | | ]; congruence.
Qed.

Lemma finish_sequence (version : val) (h1 : heap) (res : val) (rs : list val) :
  as_sequence h1 res = Some rs ->
  Forall (is_instance h1) rs ->
  exists h2 ln,
    finish version res h1 = (h2, Ok (VRef ln))
    /\ h1 !! ln = None
    /\ h2 !! ln = Some (OList rs)
    /\ (forall l o, h1 !! l = Some o ->
                    h2 !! l = Some (versioned version rs l o)).
Proof.
  intros Hseq Hrs. unfold finish. rewrite Hseq.
  set (ln := fresh (dom h1)).
  assert (Hfresh : h1 !! ln = None).
  { apply not_elem_of_dom. apply is_fresh. }
  destruct (stamp_all_instances version ln rs (<[ln := OList []]> h1) [])
    as (h2 & Hstamp & Hlist & Hobj & _).
  - now rewrite lookup_insert_eq.
  - eapply Forall_impl; [exact Hrs|].
    intros r (l & c & a & f & -> & Hl). exists l, c, a, f.
    split; [reflexivity|]. rewrite lookup_insert_ne; [exact Hl | congruence].
  - exists h2, ln. unfold bind at 1. unfold alloc. fold ln.
    unfold bind at 1. rewrite Hstamp. unfold ret.
    repeat split; auto.
    intros l o Hl. apply Hobj; [congruence|].
    rewrite lookup_insert_ne; [exact Hl | congruence].
Qed.

(** When the parser module returns a sequence of objects,
    [load_document_by_yaml] returns a new list of the same objects in the
    same order; every one of them whose class has ["cwlVersion"] among its
    [attrs] has the document's version as its cwlVersion; nothing else in
    the store changes, the module's own sequence included. *)
Theorem load_document_by_yaml_sequence_result
    (L : cwl_module -> val -> string -> val -> M val)
    (h : heap) (yaml : val) (d : dict) (m : cwl_module)
    (uri : string) (lo : val) (id_ : option string) (load_all : bool)
    (h1 : heap) (res : val) (rs : list val) :
  as_mapping h yaml = Some d ->
  dict_get "cwlVersion" d = Some (VStr (version_name m)) ->
  dict_mem "$graph" d && negb load_all = false ->
  L m yaml uri lo h = (h1, Ok res) ->
  as_sequence h1 res = Some rs ->
  Forall (is_instance h1) rs ->
  exists h2 ln,
    load_document_by_yaml L yaml uri lo id_ load_all h = (h2, Ok (VRef ln))
    /\ h1 !! ln = None
    /\ h2 !! ln = Some (OList rs)
    /\ (forall l o, h1 !! l = Some o ->
                    h2 !! l
                    = Some (versioned (VStr (version_name m)) rs l o)).
Proof.
  intros Hd Hv Hg HL Hseq Hrs.
  destruct (finish_sequence (VStr (version_name m)) h1 res rs Hseq Hrs)
    as (h2 & ln & Hfin & Hfresh & Hlist & Hobj).
  exists h2, ln. repeat split; auto.
  rewrite (load_document_by_yaml_mapping L h yaml d uri lo id_ load_all Hd).
  simpl. rewrite Hv, Hg. simpl. unfold bind at 1. unfold ret at 1.
  unfold bind. rewrite dispatch_version, HL. exact Hfin.
Qed.

(** A result of the parser module that is not a sequence is returned as
    it is, and an exception of the module is the outcome: in both cases the
    store is the one the module left. *)
Theorem load_document_by_yaml_single_result
    (L : cwl_module -> val -> string -> val -> M val)
    (h : heap) (yaml : val) (d : dict) (m : cwl_module)
    (uri : string) (lo : val) (id_ : option string) (load_all : bool) :
  as_mapping h yaml = Some d ->
  dict_get "cwlVersion" d = Some (VStr (version_name m)) ->
  dict_mem "$graph" d && negb load_all = false ->
  (forall h1 r,
      L m yaml uri lo h = (h1, Ok r) ->
      as_sequence h1 r = None ->
      load_document_by_yaml L yaml uri lo id_ load_all h = (h1, Ok r))
  /\ (forall h1 e,
        L m yaml uri lo h = (h1, Raise e) ->
        load_document_by_yaml L yaml uri lo id_ load_all h = (h1, Raise e)).
Proof.
  intros Hd Hv Hg.
  pose proof (load_document_by_yaml_mapping L h yaml d uri lo id_ load_all Hd)
    as HLd. simpl in HLd. rewrite Hv, Hg in HLd. simpl in HLd.
  unfold bind at 1 in HLd. unfold ret at 1 in HLd. unfold bind in HLd.
  rewrite dispatch_version in HLd.
  split.
  - intros h1 r HL Hseq. rewrite HLd, HL. unfold finish. now rewrite Hseq.
  - intros h1 e HL. now rewrite HLd, HL.
Qed.

Lemma get_id_from_graph_sound_witness :
  exists d g pre post s,
    as_mapping Demo.graph_doc (VRef 1%positive) = Some d
    /\ dict_get "$graph" d = Some g
    /\ as_sequence Demo.graph_doc g = Some (pre ++ VRef 4%positive :: post)%list
    /\ has_id Demo.graph_doc (VRef 4%positive) s
    /\ lstrip_hash s = requested (Some "other")
    /\ Forall (other_id Demo.graph_doc (Some "other")) pre.
Proof.
  exact (get_id_from_graph_sound Demo.graph_doc (VRef 1%positive)
           (VRef 4%positive) (Some "other") eq_refl).
Defined.

Lemma load_document_by_yaml_sequence_result_witness :
  exists h2 ln,
    load_document_by_yaml Demo.loaded_graph_load (VRef 1%positive)
      "file:///doc.cwl" VNone None true Demo.loaded_graph
    = (h2, Ok (VRef ln))
    /\ Demo.loaded_graph !! ln = None
    /\ h2 !! ln = Some (OList [VRef 5%positive; VRef 6%positive])
    /\ (forall l o, Demo.loaded_graph !! l = Some o ->
                    h2 !! l
                    = Some (versioned (VStr (version_name cwl_v1_2))
                              [VRef 5%positive; VRef 6%positive] l o)).
Proof.
  refine (load_document_by_yaml_sequence_result Demo.loaded_graph_load
            Demo.loaded_graph (VRef 1%positive) _ cwl_v1_2 "file:///doc.cwl"
            VNone None true Demo.loaded_graph (VRef 7%positive)
            [VRef 5%positive; VRef 6%positive]
            eq_refl eq_refl eq_refl eq_refl eq_refl _).
  repeat constructor.
  - exists 5%positive. repeat eexists.
  - exists 6%positive. repeat eexists.
Defined.

Lemma load_document_by_yaml_single_result_witness :
  load_document_by_yaml Demo.unreachable_load (VRef 1%positive)
    "file:///tool.cwl" VNone None false Demo.single_doc
  = (Demo.single_doc, Raise (OtherError "unreachable")).
Proof.
  exact (proj2 (load_document_by_yaml_single_result Demo.unreachable_load
                  Demo.single_doc (VRef 1%positive) _ cwl_v1_1
                  "file:///tool.cwl" VNone None false eq_refl eq_refl eq_refl)
           Demo.single_doc (OtherError "unreachable") eq_refl).
Defined.

(** The graph has an element whose id is written ["#main"]; asking for
    ["#main"] does not find it. *)
Lemma hash_request_never_selects_witness :
  exists e,
    _get_id_from_graph Demo.graph_doc (VRef 1%positive) (Some "#main")
    = Raise e
    /\ load_document_by_yaml Demo.demo_load (VRef 1%positive)
         "file:///doc.cwl" VNone (Some "#main") false Demo.graph_doc
       = (Demo.graph_doc, Raise e).
Proof.
  destruct (hash_request_never_selects Demo.graph_doc (VRef 1%positive)
              "main") as [e [He Hload]].
  exists e. split; [exact He|].
  exact (Hload Demo.demo_load
           [("cwlVersion", VStr "v1.0"); ("$graph", VRef 2%positive)]
           "file:///doc.cwl" VNone eq_refl eq_refl).
Defined.

Lemma loaders_refuse_non_mappings_witness :
  load_document_by_yaml Demo.unreachable_load (VRef 2%positive)
    "file:///doc.cwl" VNone None false Demo.graph_doc
  = (Demo.graph_doc,
     Raise (ValidationException (Text "MutableMapping is required")))
  /\ load_document Demo.unreachable_load Demo.scalar_yaml_load "file:///cwd"
       (VStr "hello") (Some "file:///doc.cwl") VNone None false Demo.graph_doc
     = (Demo.graph_doc,
        Raise (ValidationException (Text "MutableMapping is required")))
  /\ load_document_by_string Demo.unreachable_load Demo.demo_yaml_load
       "hello" "file:///doc.cwl" VNone None false Demo.graph_doc
     = (Demo.graph_doc, Raise (OtherError "YAMLError")).
Proof.
  split; [|split].
  - exact (proj1 (loaders_refuse_non_mappings Demo.unreachable_load
                    Demo.scalar_yaml_load "file:///cwd" Demo.graph_doc
                    "file:///doc.cwl" VNone None false)
             (VRef 2%positive) eq_refl).
  - exact (proj2 (proj1 (proj2 (loaders_refuse_non_mappings
                                  Demo.unreachable_load Demo.scalar_yaml_load
                                  "file:///cwd" Demo.graph_doc
                                  "file:///doc.cwl" VNone None false))
                    "hello" Demo.graph_doc (VStr "hello") eq_refl eq_refl)).
  - exact (proj2 (proj2 (loaders_refuse_non_mappings Demo.unreachable_load
                           Demo.demo_yaml_load "file:///cwd" Demo.graph_doc
                           "file:///doc.cwl" VNone None false))
             "hello" Demo.graph_doc (OtherError "YAMLError") eq_refl).
Defined.

End ParserMore.
